(** * wrangler: the incident-to-playbook workflow of [app.py]

    A shallow embedding of [app.py] and the properties of its workflow.

    - Python strings are sequences of code points ([pystr]); [str.replace],
      [str.strip], [str.endswith] and the [in] test are written out.
    - JSON bodies and other dynamically typed values are [pyval]s with
      Python's truthiness, [dict.get] and subscripting.
    - Every call that leaves the process (HTTP, git, the chat completion
      API, the clock) is answered by an environment [env]; one [env]
      answers one iteration of the [while True] loop.  Computations thread
      the file system and emit a chronological list of [event]s; a raised
      exception is a result, as in Python.
    - [shutil.rmtree] fails as it does on a real disk: on a symbolic
      link, and whenever the operating system stops the removal (the
      environment says when); the directory is then still there. *)

From Stdlib Require Import String Ascii.
From Stdlib Require Import List NArith ZArith Bool Lia.
Import ListNotations.

Set Implicit Arguments.
Set Warnings "-register-all".

(* ================================================================== *)
(** ** Python strings *)

Module PyStr.

(** A character is a Unicode code point. *)
Definition char := N.
Definition pystr := list char.

(** The code points of an ASCII literal. *)
Definition py (s : string) : pystr :=
  map N_of_ascii (list_ascii_of_string s).

Definition newline : char := 10%N.
Definition backtick : char := 96%N.

Fixpoint pystr_eqb (a b : pystr) : bool :=
  match a, b with
  | [], [] => true
  | x :: a', y :: b' => N.eqb x y && pystr_eqb a' b'
  | _, _ => false
  end.

(** [s.startswith(p)] *)
Fixpoint starts_with (p s : pystr) : bool :=
  match p, s with
  | [], _ => true
  | a :: p', b :: s' => N.eqb a b && starts_with p' s'
  | _ :: _, [] => false
  end.

(** [s.endswith(p)] *)
Definition ends_with (p s : pystr) : bool :=
  starts_with (rev p) (rev s).

(** [p in s] for strings: [p] occurs as a contiguous slice of [s]. *)
Fixpoint occurs (p s : pystr) : bool :=
  starts_with p s ||
  match s with
  | [] => false
  | _ :: s' => occurs p s'
  end.

(** [s.replace(old, new)] scans left to right and replaces the
    non-overlapping occurrences of [old].  After a replacement the scan
    resumes behind the occurrence, so the recursion is on a shorter string
    but not on a sub-term: [fuel] bounds the number of scan steps and
    [length s] steps are always enough. *)
Fixpoint replace_scan (fuel : nat) (old new s : pystr) : pystr :=
  match fuel with
  | O => s
  | S fuel' =>
      match s with
      | [] => []
      | c :: s' =>
          if starts_with old s
          then new ++ replace_scan fuel' old new (skipn (length old) s)
          else c :: replace_scan fuel' old new s'
      end
  end.

(** With an empty [old] Python inserts [new] before every character and
    at the end. *)
Definition replace (old new s : pystr) : pystr :=
  match old with
  | [] => new ++ flat_map (fun c => c :: new) s
  | _ :: _ => replace_scan (length s) old new s
  end.

(** [str.isspace] on one code point: the code points Python 3 treats as
    whitespace. *)
Definition whitespace : list char :=
  [9; 10; 11; 12; 13; 28; 29; 30; 31; 32; 133; 160; 5760;
   8192; 8193; 8194; 8195; 8196; 8197; 8198; 8199; 8200; 8201; 8202;
   8232; 8233; 8239; 8287; 12288]%N.

Definition isspace (c : char) : bool := existsb (N.eqb c) whitespace.

Fixpoint lstrip (s : pystr) : pystr :=
  match s with
  | [] => []
  | c :: s' => if isspace c then lstrip s' else s
  end.

Definition rstrip (s : pystr) : pystr := rev (lstrip (rev s)).

(** [s.strip()] *)
Definition strip (s : pystr) : pystr := rstrip (lstrip s).

(** [str.lower] restricted to the ASCII letters.  The interpreter's full
    Unicode case tables belong to the environment ([lower] in [env]);
    this is the instance used in the examples. *)
Definition ascii_lower_char (c : char) : char :=
  if (N.leb 65 c && N.leb c 90)%bool then (c + 32)%N else c.

Definition ascii_lower (s : pystr) : pystr := map ascii_lower_char s.

End PyStr.
Import PyStr.

(* ================================================================== *)
(** ** The formatter (app.py, [format_playbook_content]) *)

Definition fence_yaml : pystr := py "```yaml"%string.
Definition fence : pystr := py "```"%string.
Definition marker : pystr := py "---"%string ++ [newline].

(** [content = '---\n' + content.replace('```yaml', '').replace('```', '').strip()] *)
Definition format_playbook_content (content : pystr) : pystr :=
  marker ++ strip (replace fence [] (replace fence_yaml [] content)).

(* ================================================================== *)
(** ** Dynamically typed values, exceptions *)

Module PyVal.

(** Values that cross the program's interfaces: parsed JSON bodies, the
    chat completion response, [None].  A [dict] is an association list in
    look-up order. *)
Inductive pyval : Type :=
| VNone
| VBool (b : bool)
| VInt (z : Z)
| VStr (s : pystr)
| VList (l : list pyval)
| VDict (d : list (pystr * pyval)).

(** Python's truth value testing ([if v:], [if not v:]). *)
Definition truthy (v : pyval) : bool :=
  match v with
  | VNone => false
  | VBool b => b
  | VInt z => negb (Z.eqb z 0)
  | VStr s => negb (pystr_eqb s [])
  | VList l => match l with [] => false | _ :: _ => true end
  | VDict d => match d with [] => false | _ :: _ => true end
  end.

(** The exception classes that the modelled calls raise; each one is a
    subclass of [Exception]. *)
Inductive exn : Type :=
| HTTPError          (* requests.exceptions.HTTPError *)
| ConnectionError    (* requests.exceptions.ConnectionError, Timeout, ... *)
| JSONDecodeError
| AttributeError
| KeyError
| IndexError
| TypeError
| GitCommandError
| OSError
| OpenAIError.

(** [except requests.exceptions.HTTPError] *)
Definition is_http_error (e : exn) : bool :=
  match e with HTTPError => true | _ => false end.

Inductive result (A : Type) : Type :=
| Ok (a : A)
| Raise (e : exn).
Arguments Raise {A} e.

Definition rbind {A B : Type} (r : result A) (f : A -> result B) : result B :=
  match r with
  | Ok a => f a
  | Raise e => Raise e
  end.

Fixpoint assoc (k : pystr) (d : list (pystr * pyval)) : option pyval :=
  match d with
  | [] => None
  | (k', v) :: d' => if pystr_eqb k k' then Some v else assoc k d'
  end.

(** [v.get(k, default)]; only a [dict] has the method. *)
Definition dict_get (v : pyval) (k : pystr) (default : pyval) : result pyval :=
  match v with
  | VDict d => Ok (match assoc k d with Some x => x | None => default end)
  | _ => Raise AttributeError
  end.

(** [v[k]] with a string key. *)
Definition subscript_key (v : pyval) (k : pystr) : result pyval :=
  match v with
  | VDict d => match assoc k d with Some x => Ok x | None => Raise KeyError end
  | _ => Raise TypeError
  end.

(** [v[0]].  The keys of a parsed JSON object are strings, so a [dict]
    has no key [0]. *)
Definition subscript_0 (v : pyval) : result pyval :=
  match v with
  | VList (x :: _) => Ok x
  | VList [] => Raise IndexError
  | VStr (c :: _) => Ok (VStr [c])
  | VStr [] => Raise IndexError
  | VDict _ => Raise KeyError
  | _ => Raise TypeError
  end.

(** [v.strip()]; only a [str] has the method. *)
Definition str_strip (v : pyval) : result pystr :=
  match v with
  | VStr s => Ok (strip s)
  | _ => Raise AttributeError
  end.

End PyVal.
Import PyVal.

(* ================================================================== *)
(** ** Events, the file system and the computation monad *)

Inductive level : Type := INFO | ERROR.

(** One constructor per [logger] call of app.py. *)
Inductive logmsg : Type :=
| MsgCallingServiceNow
| MsgSnStatus (status : Z)
| MsgSnResponse (incidents : pyval)
| MsgHttpError (e : exn)
| MsgOtherError (e : exn)
| MsgGenerating (description : pyval)
| MsgGenerated (content : pystr)
| MsgSearching
| MsgCloning
| MsgCreatingBranch (branch : pystr)
| MsgCreatingPr (branch : pystr)
| MsgPrStatus (status : Z)
| MsgPrFailed (text : pystr)
| MsgUpdating (sys_id : pyval) (state : pystr)
| MsgUpdateStatus (status : Z)
| MsgUpdated
| MsgUpdateHttpError (e : exn)
| MsgUpdateOtherError (e : exn)
| MsgStartCycle
| MsgNoIncidents
| MsgNoDescription
| MsgFoundExisting
| MsgPrCreated (html_url : pyval)
| MsgFailedPr
| MsgErrorProcessing (e : exn).

(** The statements of the [try] block of [create_pull_request] that run
    git or write the file. *)
Inductive git_step : Type :=
| CloneFrom (url dir : pystr)
| OpenRepo (dir : pystr)
| CreateHead (branch : pystr)
| Checkout (branch : pystr)
| WriteFile (path content : pystr)
| IndexAdd (path : pystr)
| IndexCommit
| Remote
| Push (branch : pystr).   (* [origin.push]; what it returns is not looked at *)

Inductive chat_request : Type :=
| AskMatch (description : pyval) (playbook : pystr)
| AskPlaybook (description : pyval).

(** What the process does to the outside, in the order it does it. *)
Inductive event : Type :=
| Log (l : level) (m : logmsg)
| Sleep (seconds : Z)
| SnQuery
| SnPatch (sys_id : pyval) (data : list (pystr * pyval))
| Chat (req : chat_request)
| CloneCatalog (url dir : pystr)
| Git (step : git_step)
| PrPost (branch : pystr)
| Rmtree (dir : pystr).

Definition is_update (e : event) : bool :=
  match e with SnPatch _ _ => true | _ => false end.

Definition is_sleep (e : event) : bool :=
  match e with Sleep _ => true | _ => false end.

(** The calls of the publish pipeline that reach the target repository. *)
Definition is_publish (e : event) : bool :=
  match e with Git _ | PrPost _ => true | _ => false end.

(** The local file system, as far as [os.path.isdir] and [shutil.rmtree]
    see it: at a path there is a directory, a file, a symbolic link to a
    directory, or nothing. *)
Inductive node : Type := Dir | File | DirLink.

Definition fs := pystr -> option node.

(** [os.path.isdir] follows symbolic links. *)
Definition isdir (p : pystr) (s : fs) : bool :=
  match s p with Some Dir | Some DirLink => true | _ => false end.

(** The tree at [p] is gone: [p] and everything below it. *)
Definition remove_tree (p : pystr) (s : fs) : fs :=
  fun q => if pystr_eqb q p || starts_with (p ++ py "/") q then None else s q.

(** A removal that stopped half-way: the entries below [p] picked by
    [gone] are removed, [p] itself is still there. *)
Definition remove_below (gone : pystr -> bool) (p : pystr) (s : fs) : fs :=
  fun q => if starts_with (p ++ py "/") q && gone q then None else s q.

Definition empty_fs : fs := fun _ => None.

Definition mkdir (p : pystr) (s : fs) : fs :=
  fun q => if pystr_eqb q p then Some Dir else s q.

(** A computation runs from a file system, emits events and returns a
    value or raises. *)
Definition M (A : Type) : Type := fs -> fs * list event * result A.

Definition final_fs {A} (x : fs * list event * result A) : fs := fst (fst x).
Definition events {A} (x : fs * list event * result A) : list event := snd (fst x).
Definition outcome {A} (x : fs * list event * result A) : result A := snd x.

Definition ret {A} (a : A) : M A := fun s => (s, [], Ok a).

Definition bind {A B} (m : M A) (f : A -> M B) : M B :=
  fun s =>
    match m s with
    | (s1, ev1, Ok a) =>
        match f a s1 with (s2, ev2, r) => (s2, ev1 ++ ev2, r) end
    | (s1, ev1, Raise e) => (s1, ev1, Raise e)
    end.

Notation "x <- m ;; k" := (bind m (fun x => k))
  (at level 61, m at next level, right associativity).
Notation "m ;; k" := (bind m (fun _ => k))
  (at level 61, right associativity).

Definition lift {A} (r : result A) : M A := fun s => (s, [], r).
Definition emit (e : event) : M unit := fun s => (s, [e], Ok tt).
Definition log (l : level) (m : logmsg) : M unit := emit (Log l m).
Definition sleep (seconds : Z) : M unit := emit (Sleep seconds).

(** A call that works on the file system, answered by the environment. *)
Definition effect {A} (e : event) (f : fs -> fs * result A) : M A :=
  fun s => match f s with (s1, r) => (s1, [e], r) end.

(** [try: body except Exception as e: handler(e)] *)
Definition try_except {A} (body : M A) (handler : exn -> M A) : M A :=
  fun s =>
    match body s with
    | (s1, ev1, Raise e) =>
        match handler e s1 with (s2, ev2, r) => (s2, ev1 ++ ev2, r) end
    | x => x
    end.

(** [try: body finally: cleanup]: the cleanup runs on every exit of the
    body; the body's result stands unless the cleanup itself raises. *)
Definition try_finally {A} (body : M A) (cleanup : M unit) : M A :=
  fun s =>
    match body s with
    | (s1, ev1, r) =>
        match cleanup s1 with
        | (s2, ev2, Ok _) => (s2, ev1 ++ ev2, r)
        | (s2, ev2, Raise e) => (s2, ev1 ++ ev2, Raise e)
        end
    end.

(** [os.path.isdir(p)] *)
Definition path_isdir (p : pystr) : M bool := fun s => (s, [], Ok (isdir p s)).

(** [shutil.rmtree(p)] with the default [ignore_errors=False].  It
    refuses a symbolic link ([OSError], nothing removed) and a path that
    is no directory.  On a directory it removes the entries one by one,
    [p] itself last, and the first entry the operating system does not
    let go (no permission, a file in use) raises its [OSError]: [stop]
    tells whether that happens and, if so, which entries below [p] were
    removed before. *)
Definition rmtree (stop : option (pystr -> bool)) (p : pystr) : M unit :=
  fun s =>
    match s p, stop with
    | Some Dir, None => (remove_tree p s, [Rmtree p], Ok tt)
    | Some Dir, Some gone => (remove_below gone p s, [Rmtree p], Raise OSError)
    | _, _ => (s, [Rmtree p], Raise OSError)
    end.

(* ================================================================== *)
(** ** The environment of one loop iteration *)

Record http_response : Type := {
  status_code : Z;
  json : result pyval;      (* [response.json()] *)
  text : pystr
}.

(** The answers of the outside world during one iteration. *)
Record env : Type := {
  sn_get : result http_response;            (* [requests.get(SN_URL, ...)] *)
  sn_patch : result http_response;          (* [requests.patch(update_url, ...)] *)
  clone_catalog : fs -> fs * result unit;   (* [git.Repo.clone_from] of the catalog *)
  walk : list (pystr * result pystr);       (* files met by [os.walk], with what [f.read()] gives *)
  chat_match : nat -> pystr -> result pyval;(* completion for the i-th catalog entry *)
  chat_generate : result pyval;             (* completion of [ask_openai] *)
  lower : pystr -> pystr;                   (* [str.lower], the interpreter's case tables *)
  now : pystr;                              (* [datetime.now().strftime('%Y%m%d%H%M%S')] *)
  git : git_step -> fs -> fs * result unit; (* git and file steps of the publish pipeline *)
  pr_post : result http_response;           (* [requests.post(pr_url, ...)] *)
  rmtree_stop : pystr -> option (pystr -> bool)
                                            (* whether [shutil.rmtree] of a directory is stopped *)
}.

(** [response.raise_for_status()] raises for a 4xx or 5xx status. *)
Definition raise_for_status (r : http_response) : result unit :=
  if (Z.leb 400 (status_code r) && Z.ltb (status_code r) 600)%bool
  then Raise HTTPError else Ok tt.

(* ================================================================== *)
(** ** app.py *)

Definition AWAITING_USER_INFO_STATE_ID : pystr :=
  py "your_awaiting_user_info_state_id".
Definition EXISTING_PLAYBOOKS_REPO_URL : pystr :=
  py "https://github.com/cooktheryan/existing-playbooks.git".
Definition EXISTING_PLAYBOOKS_DIR : pystr := py "existing_playbooks".
Definition repo_url : pystr := py "git@github.com:cooktheryan/wranger-out.git".
Definition repo_dir : pystr := py "repo".

Section App.

Variable E : env.

(** [get_most_recent_incident]: both handlers log and fall off the end of
    the function, which returns [None]. *)
Definition fetch_incident : M pyval :=
  emit SnQuery ;;
  response <- lift (sn_get E) ;;
  log INFO (MsgSnStatus (status_code response)) ;;
  lift (raise_for_status response) ;;
  body <- lift (json response) ;;
  incidents <- lift (dict_get body (py "result") (VList [])) ;;
  log INFO (MsgSnResponse incidents) ;;
  if truthy incidents then lift (subscript_0 incidents) else ret VNone.

Definition get_most_recent_incident : M pyval :=
  log INFO MsgCallingServiceNow ;;
  try_except fetch_incident
    (fun e =>
       if is_http_error e
       then log ERROR (MsgHttpError e) ;; ret VNone
       else log ERROR (MsgOtherError e) ;; ret VNone).

(** [response['choices'][0]['message']['content'].strip()] *)
Definition message_content (response : pyval) : result pystr :=
  rbind (subscript_key response (py "choices")) (fun choices =>
  rbind (subscript_0 choices) (fun choice =>
  rbind (subscript_key choice (py "message")) (fun message =>
  rbind (subscript_key message (py "content")) str_strip))).

Definition ask_openai (description : pyval) : M pystr :=
  log INFO (MsgGenerating description) ;;
  emit (Chat (AskPlaybook description)) ;;
  response <- lift (chat_generate E) ;;
  playbook_content <- lift (message_content response) ;;
  log INFO (MsgGenerated playbook_content) ;;
  ret playbook_content.

Definition clone_existing_playbooks_repo : M unit :=
  stale <- path_isdir EXISTING_PLAYBOOKS_DIR ;;
  (if stale
   then rmtree (rmtree_stop E EXISTING_PLAYBOOKS_DIR) EXISTING_PLAYBOOKS_DIR
   else ret tt) ;;
  effect (CloneCatalog EXISTING_PLAYBOOKS_REPO_URL EXISTING_PLAYBOOKS_DIR)
    (clone_catalog E).

(** The [os.walk] loop: the contents of the [.yml] and [.yaml] files, in
    the order they are met. *)
Fixpoint read_playbooks (files : list (pystr * result pystr))
  : result (list pystr) :=
  match files with
  | [] => Ok []
  | (file, content) :: rest =>
      if ends_with (py ".yml") file || ends_with (py ".yaml") file
      then rbind content (fun playbook_content =>
           rbind (read_playbooks rest) (fun more =>
           Ok (playbook_content :: more)))
      else read_playbooks rest
  end.

(** The [for playbook in existing_playbooks] loop; [i] counts the
    entries already evaluated. *)
Fixpoint match_loop (description : pyval) (i : nat) (playbooks : list pystr)
  : M pyval :=
  match playbooks with
  | [] => ret VNone
  | playbook :: rest =>
      emit (Chat (AskMatch description playbook)) ;;
      response <- lift (chat_match E i playbook) ;;
      evaluation <- lift (message_content response) ;;
      if occurs (py "matches") (lower E evaluation)
      then ret (VStr playbook)
      else match_loop description (S i) rest
  end.

Definition search_existing_playbooks (description : pyval) : M pyval :=
  clone_existing_playbooks_repo ;;
  log INFO MsgSearching ;;
  existing_playbooks <- lift (read_playbooks (walk E)) ;;
  match_loop description 0 existing_playbooks.

Definition git_run (step : git_step) : M unit :=
  effect (Git step) (git E step).

Definition publish_steps (branch_name file_path playbook_content : pystr)
  : M pyval :=
  log INFO MsgCloning ;;
  git_run (CloneFrom repo_url repo_dir) ;;
  git_run (OpenRepo repo_dir) ;;
  log INFO (MsgCreatingBranch branch_name) ;;
  git_run (CreateHead branch_name) ;;
  git_run (Checkout branch_name) ;;
  git_run (WriteFile (repo_dir ++ py "/" ++ file_path) playbook_content) ;;
  git_run (IndexAdd file_path) ;;
  git_run IndexCommit ;;
  git_run Remote ;;
  git_run (Push branch_name) ;;
  log INFO (MsgCreatingPr branch_name) ;;
  emit (PrPost branch_name) ;;
  response <- lift (pr_post E) ;;
  log INFO (MsgPrStatus (status_code response)) ;;
  if Z.eqb (status_code response) 201
  then lift (json response)
  else log ERROR (MsgPrFailed (text response)) ;; ret VNone.

(** The [finally] block of [create_pull_request]. *)
Definition remove_repo_dir : M unit :=
  left_over <- path_isdir repo_dir ;;
  if left_over then rmtree (rmtree_stop E repo_dir) repo_dir else ret tt.

Definition create_pull_request (branch_name file_path playbook_content : pystr)
  : M pyval :=
  try_finally (publish_steps branch_name file_path playbook_content)
    remove_repo_dir.

Definition update_data (state_id : pystr) (comment : option pystr)
  : list (pystr * pyval) :=
  (py "state", VStr state_id) ::
  match comment with
  | Some c => if truthy (VStr c) then [(py "comments", VStr c)] else []
  | None => []
  end.

Definition update_incident_state (incident_sys_id : pyval) (state_id : pystr)
    (comment : option pystr) : M unit :=
  log INFO (MsgUpdating incident_sys_id state_id) ;;
  try_except
    (emit (SnPatch incident_sys_id (update_data state_id comment)) ;;
     response <- lift (sn_patch E) ;;
     log INFO (MsgUpdateStatus (status_code response)) ;;
     lift (raise_for_status response) ;;
     log INFO MsgUpdated)
    (fun e =>
       if is_http_error e
       then log ERROR (MsgUpdateHttpError e)
       else log ERROR (MsgUpdateOtherError e)).

(** How the body of the [while] loop is left: by [continue], or by
    reaching the end of the [try] statement. *)
Inductive ctl : Type := Continue | FallThrough.

Definition matched_comment : pystr :=
  py "Use the following playbook: " ++ EXISTING_PLAYBOOKS_REPO_URL.

Definition file_path : pystr := py "generated_playbook.yml".

(** The [try] block of [process_incidents]. *)
Definition process_try : M ctl :=
  log INFO MsgStartCycle ;;
  most_recent_incident <- get_most_recent_incident ;;
  if negb (truthy most_recent_incident) then
    log INFO MsgNoIncidents ;; sleep 5 ;; ret Continue
  else
    description <- lift (dict_get most_recent_incident (py "description") VNone) ;;
    incident_sys_id <- lift (dict_get most_recent_incident (py "sys_id") VNone) ;;
    if negb (truthy description) then
      log INFO MsgNoDescription ;; sleep 5 ;; ret Continue
    else
      existing_playbook <- search_existing_playbooks description ;;
      if truthy existing_playbook then
        log INFO MsgFoundExisting ;;
        update_incident_state incident_sys_id AWAITING_USER_INFO_STATE_ID
          (Some matched_comment) ;;
        ret Continue
      else
        playbook_content <- ask_openai description ;;
        let formatted_content := format_playbook_content playbook_content in
        let branch_name := py "generated-playbook-" ++ now E in
        pr_response <- create_pull_request branch_name file_path formatted_content ;;
        (if truthy pr_response then
           html_url <- lift (subscript_key pr_response (py "html_url")) ;;
           log INFO (MsgPrCreated html_url) ;;
           update_incident_state incident_sys_id AWAITING_USER_INFO_STATE_ID None
         else
           log ERROR MsgFailedPr) ;;
        ret FallThrough.

(** One iteration of [while True]: the [try] statement with its
    [except Exception] handler, then the final [time.sleep(5)] unless the
    iteration was left by [continue]. *)
Definition iteration : M unit :=
  c <- try_except process_try
         (fun e => log ERROR (MsgErrorProcessing e) ;; ret FallThrough) ;;
  match c with
  | Continue => ret tt
  | FallThrough => sleep 5
  end.

End App.

(** [process_incidents], cut after [n] iterations; iteration [k] is
    answered by [envs k]. *)
Fixpoint run_from (envs : nat -> env) (k n : nat) : M unit :=
  match n with
  | O => ret tt
  | S n' => iteration (envs k) ;; run_from envs (S k) n'
  end.

Definition process_incidents (envs : nat -> env) (n : nat) : M unit :=
  run_from envs 0 n.

(* ================================================================== *)
(** ** Sample environments *)

(** A chat completion whose first choice carries [content]. *)
Definition chat_reply (content : pystr) : pyval :=
  VDict [(py "choices",
          VList [VDict [(py "message",
                         VDict [(py "role", VStr (py "assistant"));
                                (py "content", VStr content)])]])].

Definition response (status : Z) (body : result pyval) : http_response :=
  {| status_code := status; json := body; text := [] |}.

Definition node7 : pyval := VStr (py "disk full on node7").

Definition disk_full : pyval :=
  VDict [(py "sys_id", VStr (py "a1b2c3"));
         (py "description", node7)].

Definition incidents_of (l : list pyval) : result http_response :=
  Ok (response 200 (Ok (VDict [(py "result", VList l)]))).

Definition pr_created : result http_response :=
  Ok (response 201
        (Ok (VDict [(py "html_url",
                     VStr (py "https://github.com/cooktheryan/wranger-out/pull/1"))]))).

(** [git clone] into [dir]: a link to an empty directory is cloned
    into and stays a link. *)
Definition clone_into (dir : pystr) (s : fs) : fs :=
  match s dir with
  | Some DirLink => s
  | _ => mkdir dir s
  end.

(** An environment in which git, the removal of directories and the
    ticketing update work; the ticketing query, the catalog, the two chat
    completions and the pull request API answer as given. *)
Definition sample_env (get : result http_response)
    (files : list (pystr * result pystr))
    (judge : nat -> pystr -> result pyval)
    (draft : result pyval) (post : result http_response) : env :=
  {| sn_get := get;
     sn_patch := Ok (response 200 (Ok (VDict [])));
     clone_catalog := fun s => (clone_into EXISTING_PLAYBOOKS_DIR s, Ok tt);
     walk := files;
     chat_match := judge;
     chat_generate := draft;
     lower := ascii_lower;
     now := py "20240101120000";
     git := fun step s =>
              match step with
              | CloneFrom _ dir => (clone_into dir s, Ok tt)
              | _ => (s, Ok tt)
              end;
     pr_post := post;
     rmtree_stop := fun _ => None |}.

Definition no_judge : nat -> pystr -> result pyval :=
  fun _ _ => Ok (chat_reply (py "No, this playbook is unrelated.")).

Definition yaml_draft : result pyval :=
  Ok (chat_reply (py "```yaml" ++ [newline] ++ py "- hosts: all"
                    ++ [newline] ++ py "```")).

(** Scenario A of the specification: an incident, an empty catalog. *)
Definition generated_env : env :=
  sample_env (incidents_of [disk_full]) [] no_judge yaml_draft pr_created.

(** Scenario B: the only catalog entry is judged a match. *)
Definition matched_env : env :=
  sample_env (incidents_of [disk_full])
    [(py "restart-service.yml", Ok (py "- name: restart service"))]
    (fun _ _ => Ok (chat_reply (py "Yes, the playbook MATCHES the incident.")))
    yaml_draft pr_created.

(** Scenario C: the ticketing query answers HTTP 500. *)
Definition backend_error_env : env :=
  sample_env (Ok (response 500 (Raise JSONDecodeError))) [] no_judge
    yaml_draft pr_created.

(** The ticketing backend cannot be reached. *)
Definition network_down_env : env :=
  sample_env (Raise ConnectionError) [] no_judge yaml_draft pr_created.



(** The pull request API answers 422. *)
Definition pr_rejected_env : env :=
  sample_env (incidents_of [disk_full]) [] no_judge yaml_draft
    (Ok (response 422 (Ok (VDict [(py "message", VStr (py "Validation Failed"))])))).

(** The pull request API answers 201 with an empty JSON object. *)
Definition pr_empty_body_env : env :=
  sample_env (incidents_of [disk_full]) [] no_judge yaml_draft
    (Ok (response 201 (Ok (VDict [])))).

(** The pull request API answers 201 with an object without [html_url]. *)
Definition pr_no_url_env : env :=
  sample_env (incidents_of [disk_full]) [] no_judge yaml_draft
    (Ok (response 201 (Ok (VDict [(py "number", VInt 7)])))).

Definition generated_branch : pystr := py "generated-playbook-20240101120000".

(** The backend reports no incident. *)
Definition no_incident_env : env :=
  sample_env (incidents_of []) [] no_judge yaml_draft pr_created.

(** The most recent incident has no description. *)
Definition no_description_env : env :=
  sample_env (incidents_of [VDict [(py "sys_id", VStr (py "a1b2c3"))]])
    [] no_judge yaml_draft pr_created.

(** As [generated_env], but the target repository cannot be cloned. *)
Definition clone_fails_env : env :=
  {| sn_get := sn_get generated_env;
     sn_patch := sn_patch generated_env;
     clone_catalog := clone_catalog generated_env;
     walk := walk generated_env;
     chat_match := chat_match generated_env;
     chat_generate := chat_generate generated_env;
     lower := lower generated_env;
     now := now generated_env;
     git := fun step s =>
              match step with
              | CloneFrom _ _ => (s, Raise GitCommandError)
              | _ => git generated_env step s
              end;
     pr_post := pr_post generated_env;
     rmtree_stop := rmtree_stop generated_env |}.

(** As [E], but the operating system does not let go of the tree at
    [dir]: its removal is stopped at the first entry. *)
Definition with_locked (dir : pystr) (E : env) : env :=
  {| sn_get := sn_get E;
     sn_patch := sn_patch E;
     clone_catalog := clone_catalog E;
     walk := walk E;
     chat_match := chat_match E;
     chat_generate := chat_generate E;
     lower := lower E;
     now := now E;
     git := git E;
     pr_post := pr_post E;
     rmtree_stop := fun p => if pystr_eqb p dir then Some (fun _ => false)
                             else rmtree_stop E p |}.

(** Scenario A, with a working copy that cannot be removed. *)
Definition locked_generated_env : env := with_locked repo_dir generated_env.

(** The pull request API answers 422 and the working copy cannot be
    removed. *)
Definition locked_rejected_env : env := with_locked repo_dir pr_rejected_env.

(** Scenario A, with a catalog copy that cannot be removed. *)
Definition locked_catalog_env : env :=
  with_locked EXISTING_PLAYBOOKS_DIR generated_env.

(** [repo] is a symbolic link to a directory. *)
Definition linked_repo_fs : fs :=
  fun p => if pystr_eqb p repo_dir then Some DirLink else None.

(** The catalog copy of an earlier search is on disk. *)
Definition stale_catalog_fs : fs := mkdir EXISTING_PLAYBOOKS_DIR empty_fs.

(** Five catalog entries of which the second and the fourth are judged
    a match (property P2 of the specification). *)
Definition five_files : list (pystr * result pystr) :=
  [(py "a.yml", Ok (py "one")); (py "b.yaml", Ok (py "two"));
   (py "README.md", Ok (py "not a playbook"));
   (py "c.yml", Ok (py "three")); (py "d.yml", Ok (py "four"));
   (py "e.yml", Ok (py "five"))].

Definition judge_2_and_4 : nat -> pystr -> result pyval :=
  fun i _ =>
    match i with
    | 1%nat | 3%nat => Ok (chat_reply (py "It matches."))
    | _ => Ok (chat_reply (py "No."))
    end.

(** The classifier call for the second entry fails; the fourth entry
    would be judged a match. *)
Definition flaky_env : env :=
  sample_env (incidents_of [disk_full]) five_files
    (fun i _ =>
       match i with
       | 1%nat => Raise OpenAIError
       | 3%nat => Ok (chat_reply (py "It matches."))
       | _ => Ok (chat_reply (py "No."))
       end)
    yaml_draft pr_created.

Definition five_env : env :=
  sample_env (incidents_of [disk_full]) five_files judge_2_and_4 yaml_draft
    pr_created.

(* ================================================================== *)
(** ** Which events an operation may emit *)

(** The messages logged by [process_incidents] itself. *)
Definition loop_msg (m : logmsg) : bool :=
  match m with
  | MsgStartCycle | MsgNoIncidents | MsgNoDescription | MsgFoundExisting
  | MsgPrCreated _ | MsgFailedPr | MsgErrorProcessing _ => true
  | _ => false
  end.

Definition fetch_event (e : event) : bool :=
  match e with
  | Log _ m => negb (loop_msg m)
  | SnQuery => true
  | _ => false
  end.

Definition search_event (e : event) : bool :=
  match e with
  | Log _ m => negb (loop_msg m)
  | Rmtree _ | CloneCatalog _ _ | Chat (AskMatch _ _) => true
  | _ => false
  end.

Definition draft_event (e : event) : bool :=
  match e with
  | Log _ m => negb (loop_msg m)
  | Chat (AskPlaybook _) => true
  | _ => false
  end.

Definition update_event (e : event) : bool :=
  match e with
  | Log _ m => negb (loop_msg m)
  | SnPatch _ _ => true
  | _ => false
  end.

Definition publish_event (e : event) : bool :=
  match e with
  | Log _ m => negb (loop_msg m)
  | Git _ | PrPost _ | Rmtree _ => true
  | _ => false
  end.

(** The [finally] block of [create_pull_request] only removes a tree. *)
Definition cleanup_event (e : event) : bool :=
  match e with
  | Rmtree _ => true
  | _ => false
  end.

(** What [create_pull_request] returns once the request is posted. *)
Definition pr_outcome (E : env) : result pyval :=
  match pr_post E with
  | Ok response =>
      if Z.eqb (status_code response) 201 then json response else Ok VNone
  | Raise e => Raise e
  end.

(** What [ask_openai] returns. *)
Definition draft_outcome (E : env) : result pystr :=
  rbind (chat_generate E) message_content.

(** The judgment on the [i]-th catalog entry: whether the stripped,
    lower-cased evaluation of the classifier contains ["matches"]. *)
Definition judged (E : env) (i : nat) (playbook : pystr) : result bool :=
  rbind (chat_match E i playbook) (fun response =>
  rbind (message_content response) (fun evaluation =>
  Ok (occurs (py "matches") (lower E evaluation)))).

Definition is_cycle_start (e : event) : bool :=
  match e with
  | Log INFO MsgStartCycle => true
  | _ => false
  end.

(** The two paths on which an iteration updates the incident, told by
    the data of the PATCH request and the rest of the trace. *)
Definition matched_path (ev : list event) (data : list (pystr * pyval)) : Prop :=
  data = update_data AWAITING_USER_INFO_STATE_ID (Some matched_comment) /\
  In (Log INFO MsgFoundExisting) ev /\
  filter is_publish ev = [] /\
  (forall d, ~ In (Chat (AskPlaybook d)) ev) /\
  (forall u, ~ In (Log INFO (MsgPrCreated u)) ev).

Definition generated_path (ev : list event) (data : list (pystr * pyval)) : Prop :=
  data = update_data AWAITING_USER_INFO_STATE_ID None /\
  ~ In (Log INFO MsgFoundExisting) ev /\
  (exists d, In (Chat (AskPlaybook d)) ev) /\
  (exists b, In (PrPost b) ev) /\
  (exists u, In (Log INFO (MsgPrCreated u)) ev).

(** The log line of the matched path. *)
Definition is_found (e : event) : bool :=
  match e with
  | Log _ MsgFoundExisting => true
  | _ => false
  end.

Definition is_chat (e : event) : bool :=
  match e with
  | Chat _ => true
  | _ => false
  end.

(** The classifier call of the search loop for one catalog entry. *)
Definition ask_match (description : pyval) (playbook : pystr) : event :=
  Chat (AskMatch description playbook).

(** The test of the [os.walk] loop on a file name. *)
Definition is_playbook_file (file : pystr) : bool :=
  ends_with (py ".yml") file || ends_with (py ".yaml") file.

(** [only Q m]: whatever the file system, [m] emits events of class [Q]
    only. *)
Definition only {A} (Q : event -> bool) (m : M A) : Prop :=
  forall s, Forall (fun e => Q e = true) (events (m s)).

(* ================================================================== *)
(** ** Facts about the string operations *)

Section StringFacts.

Lemma starts_with_app (p t : pystr) : starts_with p (p ++ t) = true.
Proof.
  induction p as [|a p IH]; simpl; [reflexivity|].
  now rewrite N.eqb_refl, IH.
Qed.

Lemma starts_with_split (p s : pystr) :
  starts_with p s = true -> s = p ++ skipn (length p) s.
Proof.
  revert s; induction p as [|a p IH]; intros [|b s] H; simpl in *;
    try reflexivity; try discriminate.
  apply andb_true_iff in H as [Hab Hps].
  apply N.eqb_eq in Hab; subst b.
  f_equal. now apply IH.
Qed.

Lemma starts_with_prefix (p q s : pystr) :
  starts_with (p ++ q) s = true -> starts_with p s = true.
Proof.
  revert s; induction p as [|a p IH]; intros s H; simpl in *; [reflexivity|].
  destruct s as [|b s]; [discriminate|].
  apply andb_true_iff in H as [Hab Hps].
  rewrite Hab; simpl. now apply IH.
Qed.


(** An occurrence is a decomposition of the string. *)
Lemma occurs_iff (p s : pystr) :
  occurs p s = true <-> exists a b, s = a ++ p ++ b.
Proof.
  split.
  - induction s as [|c s IH]; simpl; intros H.
    + rewrite orb_false_r in H.
      exists [], []. destruct p; [reflexivity|discriminate].
    + apply orb_true_iff in H as [H|H].
      * exists [], (skipn (length p) (c :: s)).
        now apply starts_with_split in H.
      * destruct (IH H) as (a & b & ->). now exists (c :: a), b.
  - intros (a & b & ->).
    induction a as [|c a IH]; simpl.
    + destruct (p ++ b) eqn:E.
      * destruct p; [reflexivity|discriminate].
      * simpl. rewrite <- E, starts_with_app. reflexivity.
    + rewrite IH. apply orb_true_r.
Qed.

Lemma occurs_infix (p a s b : pystr) :
  occurs p (a ++ s ++ b) = false -> occurs p s = false.
Proof.
  intros H. destruct (occurs p s) eqn:E; [|reflexivity].
  apply occurs_iff in E as (x & y & ->).
  assert (occurs p (a ++ (x ++ p ++ y) ++ b) = true) as H'.
  { apply occurs_iff. exists (a ++ x), (y ++ b).
    now rewrite <- !app_assoc. }
  congruence.
Qed.

(** What [lstrip], [rstrip] and [strip] keep is a slice of the input. *)
Lemma lstrip_suffix (s : pystr) : exists a, s = a ++ lstrip s.
Proof.
  induction s as [|c s [a IH]]; simpl.
  - now exists [].
  - destruct (isspace c).
    + exists (c :: a). simpl. now f_equal.
    + now exists [].
Qed.

Lemma rstrip_prefix (s : pystr) : exists b, s = rstrip s ++ b.
Proof.
  unfold rstrip. destruct (lstrip_suffix (rev s)) as [a Ha].
  exists (rev a). rewrite <- rev_app_distr, <- Ha. now rewrite rev_involutive.
Qed.

Lemma strip_infix (s : pystr) : exists a b, s = a ++ strip s ++ b.
Proof.
  unfold strip.
  destruct (lstrip_suffix s) as [a Ha].
  destruct (rstrip_prefix (lstrip s)) as [b Hb].
  exists a, b. now rewrite <- Hb.
Qed.

Lemma occurs_strip (p s : pystr) :
  occurs p s = false -> occurs p (strip s) = false.
Proof.
  intros H. destruct (strip_infix s) as (a & b & E).
  rewrite E in H. now apply occurs_infix in H.
Qed.

Lemma lstrip_head (s : pystr) (c : char) (u : pystr) :
  lstrip s = c :: u -> isspace c = false.
Proof.
  induction s as [|d s IH]; simpl; [discriminate|].
  destruct (isspace d) eqn:E; [exact IH|].
  intros [= -> _]. exact E.
Qed.

Lemma lstrip_fixed (s t : pystr) :
  lstrip s <> [] -> lstrip (lstrip s ++ t) = lstrip s ++ t.
Proof.
  destruct (lstrip s) as [|c u] eqn:E; [congruence|]. intros _.
  simpl. now rewrite (lstrip_head _ E).
Qed.

(** [replace_scan] does not depend on the fuel once there is enough. *)
Lemma replace_scan_fuel (old new : pystr) (f1 f2 : nat) (s : pystr) :
  old <> [] -> length s <= f1 -> length s <= f2 ->
  replace_scan f1 old new s = replace_scan f2 old new s.
Proof.
  intros Hold. revert f2 s.
  induction f1 as [|f1 IH]; intros f2 s H1 H2.
  - destruct s; [|simpl in H1; lia]. now destruct f2.
  - destruct f2 as [|f2]; [destruct s; [reflexivity|simpl in H2; lia]|].
    destruct s as [|c s]; [reflexivity|].
    cbn [replace_scan]. simpl in H1, H2.
    destruct (starts_with old (c :: s)).
    + f_equal. destruct old as [|o old]; [congruence|].
      cbn [length skipn].
      pose proof (length_skipn (length old) s).
      apply IH; lia.
    + f_equal. apply IH; lia.
Qed.

(** The equations of [replace] for a non-empty pattern. *)
Lemma replace_nil (o : char) (old new : pystr) :
  replace (o :: old) new [] = [].
Proof. reflexivity. Qed.

Lemma replace_cons (o : char) (old new : pystr) (c : char) (s : pystr) :
  replace (o :: old) new (c :: s) =
  if starts_with (o :: old) (c :: s)
  then new ++ replace (o :: old) new (skipn (length old) s)
  else c :: replace (o :: old) new s.
Proof.
  unfold replace. cbn [length replace_scan skipn].
  pose proof (length_skipn (length old) s).
  destruct (starts_with (o :: old) (c :: s)); f_equal;
    apply replace_scan_fuel; try discriminate; lia.
Qed.

(** A string without an occurrence of the pattern is left as it is. *)
Lemma replace_absent (o : char) (old new s : pystr) :
  occurs (o :: old) s = false -> replace (o :: old) new s = s.
Proof.
  induction s as [|c s IH]; intros H; [reflexivity|].
  rewrite replace_cons.
  cbn [occurs] in H. apply orb_false_iff in H as [H1 H2].
  rewrite H1. f_equal. now apply IH.
Qed.

End StringFacts.

(* ================================================================== *)
(** ** The formatter: marker, fences, repeated application *)

Section Formatter.

Lemma fence_codes : fence = [backtick; backtick; backtick].
Proof. reflexivity. Qed.

Lemma fence_yaml_codes : fence_yaml = fence ++ py "yaml".
Proof. reflexivity. Qed.

(** Removing the fences cannot bring a backtick to the front ... *)
Lemma strip_fence_head (s : pystr) :
  starts_with [backtick] (replace fence [] s) = true ->
  starts_with [backtick] s = true.
Proof.
  rewrite fence_codes. destruct s as [|c s]; [discriminate|].
  rewrite replace_cons.
  destruct (starts_with _ (c :: s)) eqn:E.
  - intros _. now apply (starts_with_prefix [backtick] [backtick; backtick]).
  - simpl. now rewrite !andb_true_r.
Qed.

(** ... nor two of them. *)
Lemma strip_fence_head2 (s : pystr) :
  starts_with [backtick; backtick] (replace fence [] s) = true ->
  starts_with [backtick; backtick] s = true.
Proof.
  destruct s as [|c s]; [discriminate|].
  pose proof (strip_fence_head s) as Hs. revert Hs.
  rewrite fence_codes, replace_cons.
  destruct (starts_with _ (c :: s)) eqn:E.
  - intros _ _.
    now apply (starts_with_prefix [backtick; backtick] [backtick]).
  - intros Hs H. cbn [starts_with] in H |- *.
    apply andb_true_iff in H as [Hc H]. rewrite Hc. simpl.
    apply Hs. exact H.
Qed.

(** After [.replace('```', '')] no fence is left. *)
Lemma replace_fence_free (s : pystr) :
  occurs fence (replace fence [] s) = false.
Proof.
  remember (length s) as n eqn:Hn.
  assert (length s <= n) as Hle by lia. clear Hn.
  revert s Hle. induction n as [|n IH]; intros s Hle.
  - destruct s; [reflexivity|simpl in Hle; lia].
  - destruct s as [|c s]; [reflexivity|].
    pose proof (strip_fence_head2 s) as H2. revert H2.
    rewrite fence_codes in *. rewrite replace_cons.
    destruct (starts_with _ (c :: s)) eqn:E; intros H2.
    + apply IH. cbn [length] in *.
      pose proof (length_skipn 2 s). lia.
    + cbn [occurs]. rewrite IH by (simpl in Hle; lia).
      rewrite orb_false_r.
      destruct (starts_with [backtick; backtick; backtick]
                  (c :: replace [backtick; backtick; backtick] [] s)) eqn:F;
        [|reflexivity].
      cbn [starts_with] in F, E, H2.
      apply andb_true_iff in F as [Fc F].
      rewrite Fc in E. rewrite (H2 F) in E. discriminate.
Qed.

Lemma fence_yaml_absent (s : pystr) :
  occurs fence s = false -> occurs fence_yaml s = false.
Proof.
  rewrite fence_yaml_codes.
  induction s as [|c s IH]; cbn [occurs]; intros H;
    apply orb_false_iff in H as [H1 H2].
  - reflexivity.
  - rewrite (IH H2), orb_false_r.
    destruct (starts_with (fence ++ py "yaml") (c :: s)) eqn:E; [|reflexivity].
    apply starts_with_prefix in E. congruence.
Qed.

Lemma marker_no_fence (t : pystr) :
  occurs fence (marker ++ t) = occurs fence t.
Proof. reflexivity. Qed.

Lemma format_fence_free (content : pystr) :
  occurs fence (format_playbook_content content) = false.
Proof.
  unfold format_playbook_content. rewrite marker_no_fence.
  apply occurs_strip, replace_fence_free.
Qed.

(** C9: for every raw text the formatted document begins with the
    document-start marker ['---\n'] and contains no code-fence marker,
    neither ['```'] nor ['```yaml']. *)
Theorem format_marker_and_no_fence (content : pystr) :
  starts_with marker (format_playbook_content content) = true /\
  occurs fence (format_playbook_content content) = false /\
  occurs fence_yaml (format_playbook_content content) = false.
Proof.
  split; [|split].
  - apply starts_with_app.
  - apply format_fence_free.
  - apply fence_yaml_absent, format_fence_free.
Qed.

(** A formatted document passes the two [replace] calls unchanged. *)
Lemma format_replace_fixed (content : pystr) :
  replace fence [] (replace fence_yaml [] (format_playbook_content content))
  = format_playbook_content content.
Proof.
  pose proof (format_fence_free content) as H.
  change fence_yaml with (backtick :: skipn 1 fence_yaml).
  rewrite replace_absent by (apply fence_yaml_absent, H).
  change fence with (backtick :: skipn 1 fence).
  now apply replace_absent.
Qed.

Lemma strip_marker (y : pystr) :
  strip y <> [] -> strip (marker ++ strip y) = marker ++ strip y.
Proof.
  assert (strip y = rev (lstrip (rev (lstrip y)))) as -> by reflexivity.
  set (v := lstrip (rev (lstrip y))). intros Hv.
  assert (v <> []) as Hv'.
  { intros F. apply Hv. now rewrite F. }
  unfold strip.
  change (lstrip (marker ++ rev v)) with (marker ++ rev v).
  unfold rstrip. rewrite rev_app_distr, rev_involutive.
  subst v. rewrite lstrip_fixed by exact Hv'.
  now rewrite rev_app_distr, rev_involutive.
Qed.

(** C3 (amended): the formatter prepends the marker at every application.
    Its own output passes the fence removal unchanged, so formatting a
    formatted document yields the marker followed by the trimmed
    once-formatted document; when the cleaned text is not empty, that is
    the marker followed by the once-formatted document itself. *)
Theorem format_twice (content : pystr) :
  format_playbook_content (format_playbook_content content)
  = marker ++ strip (format_playbook_content content) /\
  (strip (replace fence [] (replace fence_yaml [] content)) <> [] ->
   format_playbook_content (format_playbook_content content)
   = marker ++ format_playbook_content content).
Proof.
  split.
  - unfold format_playbook_content at 1.
    now rewrite format_replace_fixed.
  - intros Hne.
    unfold format_playbook_content at 1.
    rewrite format_replace_fixed. f_equal.
    unfold format_playbook_content.
    now apply strip_marker.
Qed.

(** Witness of [format_twice] on the text ["a"]. *)
Lemma format_twice_witness :
  strip (replace fence [] (replace fence_yaml [] (py "a"))) <> [] /\
  format_playbook_content (format_playbook_content (py "a"))
  = marker ++ format_playbook_content (py "a").
Proof.
  split.
  - vm_compute. discriminate.
  - apply (proj2 (format_twice (py "a"))). vm_compute. discriminate.
Defined.

(** C3 as stated fails: formatting the formatted text ["a"] gives
    ['---\n---\na'], not ['---\na']. *)
Lemma format_not_idempotent :
  format_playbook_content (format_playbook_content (py "a"))
  <> format_playbook_content (py "a").
Proof. vm_compute. discriminate. Qed.

Example format_fenced :
  format_playbook_content
    (py "```yaml" ++ [newline] ++ py "- hosts: all" ++ [newline] ++ py "```")
  = py "---" ++ [newline] ++ py "- hosts: all".
Proof. reflexivity. Qed.

End Formatter.


(* ================================================================== *)
(** ** The computation monad *)

Section MonadFacts.

Context {A B : Type}.

Lemma bind_ok (m : M A) (f : A -> M B) s s1 ev1 a :
  m s = (s1, ev1, Ok a) ->
  bind m f s = (final_fs (f a s1), ev1 ++ events (f a s1), outcome (f a s1)).
Proof.
  intros H. unfold bind. rewrite H. now destruct (f a s1) as [[? ?] ?].
Qed.

Lemma bind_raise (m : M A) (f : A -> M B) s s1 ev1 e :
  m s = (s1, ev1, Raise e) -> bind m f s = (s1, ev1, Raise e).
Proof. intros H. unfold bind. now rewrite H. Qed.

Variable Q : event -> bool.

Lemma only_ret (a : A) : only Q (ret a).
Proof. intros s. unfold ret, events. simpl. constructor. Qed.

Lemma only_lift (r : result A) : only Q (lift r).
Proof. intros s. unfold lift, events. simpl. constructor. Qed.

Lemma only_effect (e : event) (f : fs -> fs * result A) :
  Q e = true -> only Q (effect e f).
Proof.
  intros H s. unfold effect, events. destruct (f s). simpl. auto.
Qed.

Lemma only_bind (m : M A) (f : A -> M B) :
  only Q m -> (forall a, only Q (f a)) -> only Q (bind m f).
Proof.
  intros Hm Hf s. specialize (Hm s). unfold bind, events in *.
  destruct (m s) as [[s1 ev1] [a|e]]; simpl in *; [|exact Hm].
  specialize (Hf a s1). destruct (f a s1) as [[s2 ev2] r]; simpl in *.
  apply Forall_app. now split.
Qed.

Lemma only_try_except (body : M A) (handler : exn -> M A) :
  only Q body -> (forall e, only Q (handler e)) ->
  only Q (try_except body handler).
Proof.
  intros Hm Hf s. specialize (Hm s). unfold try_except, events in *.
  destruct (body s) as [[s1 ev1] [a|e]]; simpl in *; [exact Hm|].
  specialize (Hf e s1). destruct (handler e s1) as [[s2 ev2] r]; simpl in *.
  apply Forall_app. now split.
Qed.

Lemma only_try_finally (body : M A) (cleanup : M unit) :
  only Q body -> only Q cleanup -> only Q (try_finally body cleanup).
Proof.
  intros Hm Hc s. specialize (Hm s). unfold try_finally, events in *.
  destruct (body s) as [[s1 ev1] r]; simpl in *.
  specialize (Hc s1). destruct (cleanup s1) as [[s2 ev2] [[]|e]]; simpl in *;
    apply Forall_app; now split.
Qed.

End MonadFacts.

Lemma only_emit (Q : event -> bool) (e : event) : Q e = true -> only Q (emit e).
Proof. intros H s. unfold emit, events. simpl. auto. Qed.

Lemma only_path_isdir (Q : event -> bool) (p : pystr) : only Q (path_isdir p).
Proof. intros s. unfold path_isdir, events. simpl. constructor. Qed.

Lemma only_rmtree (Q : event -> bool) (stop : option (pystr -> bool))
    (p : pystr) :
  Q (Rmtree p) = true -> only Q (rmtree stop p).
Proof.
  intros H s. unfold rmtree, events.
  destruct (s p) as [[| |]|], stop; simpl; auto.
Qed.

Lemma in_filter_single (P : event -> bool) (l : list event) (x y : event) :
  filter P l = [y] -> In x l -> P x = true -> x = y.
Proof.
  intros Hf Hin HP.
  assert (In x (filter P l)) as H by (apply filter_In; auto).
  rewrite Hf in H. destruct H as [H|[]]. now symmetry.
Qed.

Lemma only_run {A} (Q : event -> bool) (m : M A) s s1 ev r :
  only Q m -> m s = (s1, ev, r) -> Forall (fun e => Q e = true) ev.
Proof. intros H Hs. specialize (H s). now rewrite Hs in H. Qed.

Lemma only_filter (Q P : event -> bool) (ev : list event) :
  (forall e, Q e = true -> P e = false) ->
  Forall (fun e => Q e = true) ev -> filter P ev = [].
Proof.
  intros HQP H. induction H as [|e ev He _ IH]; simpl; [reflexivity|].
  now rewrite (HQP e He).
Qed.

Lemma only_not_in (Q : event -> bool) (ev : list event) (x : event) :
  Q x = false -> Forall (fun e => Q e = true) ev -> ~ In x ev.
Proof.
  intros Hx H Hin. rewrite Forall_forall in H.
  specialize (H x Hin). congruence.
Qed.

Lemma pystr_eqb_refl (a : pystr) : pystr_eqb a a = true.
Proof. induction a; simpl; [reflexivity|]. now rewrite N.eqb_refl. Qed.

Lemma isdir_remove_tree (p : pystr) (s : fs) : isdir p (remove_tree p s) = false.
Proof. unfold isdir, remove_tree. now rewrite pystr_eqb_refl. Qed.

Lemma starts_with_longer (p : pystr) (c : char) (t : pystr) :
  starts_with (p ++ c :: t) p = false.
Proof.
  induction p as [|a p IH]; simpl; [reflexivity|].
  now rewrite IH, andb_false_r.
Qed.

(** A removal that is stopped leaves the directory itself. *)
Lemma remove_below_top (gone : pystr -> bool) (p : pystr) (s : fs) :
  remove_below gone p s p = s p.
Proof.
  unfold remove_below. change (py "/") with [47%N].
  now rewrite starts_with_longer.
Qed.

(** What a call of [shutil.rmtree] that follows a positive
    [os.path.isdir] test does: the tree is gone, or [OSError] is raised
    and the directory - a symbolic link, or a tree whose removal was
    stopped - is still there. *)
Lemma rmtree_run (stop : option (pystr -> bool)) (p : pystr) (s s1 : fs)
    (ev : list event) (r : result unit) :
  isdir p s = true ->
  rmtree stop p s = (s1, ev, r) ->
  ev = [Rmtree p] /\
  ((r = Ok tt /\ s1 = remove_tree p s /\ s p = Some Dir /\ stop = None) \/
   (r = Raise OSError /\ isdir p s1 = true /\
    (s1 p = Some DirLink \/ stop <> None))).
Proof.
  unfold rmtree, isdir. intros D.
  destruct (s p) as [[| |]|] eqn:Hp; try discriminate D.
  - destruct stop as [gone|]; intros [= <- <- <-]; (split; [reflexivity|]).
    + right. rewrite remove_below_top, Hp.
      split; [reflexivity|]. split; [reflexivity|]. right. discriminate.
    + left. auto.
  - intros [= <- <- <-]. split; [reflexivity|]. right. rewrite Hp. auto.
Qed.

(* ================================================================== *)
(** ** The operations of app.py *)

Ltac footprint :=
  repeat first
    [ apply only_bind; [|intros ?]
    | apply only_try_except; [|intros ?]
    | apply only_try_finally
    | apply only_ret
    | apply only_lift
    | apply only_emit; reflexivity
    | apply only_effect; reflexivity
    | apply only_rmtree; reflexivity
    | apply only_path_isdir
    | match goal with |- only _ (if ?b then _ else _) => destruct b end
    | match goal with |- only _ (match ?b with _ => _ end) => destruct b end ].

(** Finds a [match] whose scrutinee contains no other [match] and
    splits on it. *)
Ltac split_scrutinee :=
  match goal with
  | |- context [match ?x with _ => _ end] =>
      lazymatch x with
      | context [match _ with _ => _ end] => fail
      | _ => destruct x eqn:?
      end
  end.

(** Side condition of [only_filter]: by cases on the event. *)
Ltac by_event_class :=
  try (let e := fresh "e" in
       intros e; destruct e as [? []| | |? ?|[? ?|?]|? ?|?|?|?]);
  simpl; intros; congruence.

(** Proves a membership goal by finding the element. *)
Ltac pick :=
  lazymatch goal with
  | |- In _ (_ ++ _) => apply in_or_app; ((left; pick) || (right; pick))
  | |- In _ (_ :: _) => (left; reflexivity) || (right; pick)
  | |- In _ _ => eassumption
  end.

(** Splits a membership hypothesis over the segments of a trace and
    drops the segments that cannot hold the element. *)
Ltac in_cases H :=
  lazymatch type of H with
  | In _ (_ ++ _) => apply in_app_or in H; destruct H as [H|H]; in_cases H
  | In _ (_ :: _) => destruct H as [H|H]; [try discriminate H|in_cases H]
  | In _ [] => destruct H
  | In ?x ?l =>
      try match goal with
          | F : Forall (fun e => ?Q e = true) l |- _ =>
              exfalso; apply (@only_not_in Q l x); [reflexivity|exact F|exact H]
          end
  end.

Section Footprints.

Variable E : env.

Lemma fetch_only : only fetch_event (get_most_recent_incident E).
Proof. unfold get_most_recent_incident, fetch_incident, log. footprint. Qed.

Lemma clone_catalog_only : only search_event (clone_existing_playbooks_repo E).
Proof. unfold clone_existing_playbooks_repo. footprint. Qed.

Lemma match_loop_only description i playbooks :
  only search_event (match_loop E description i playbooks).
Proof.
  revert i. induction playbooks as [|p rest IH]; intros i; simpl.
  - footprint.
  - footprint. apply IH.
Qed.

Lemma search_only description :
  only search_event (search_existing_playbooks E description).
Proof.
  unfold search_existing_playbooks, log.
  apply only_bind; [apply clone_catalog_only|intros _].
  footprint. apply match_loop_only.
Qed.

Lemma draft_only description : only draft_event (ask_openai E description).
Proof. unfold ask_openai, log. footprint. Qed.

Lemma cleanup_only : only cleanup_event (remove_repo_dir E).
Proof. unfold remove_repo_dir. footprint. Qed.

Lemma publish_only b f c : only publish_event (create_pull_request E b f c).
Proof.
  unfold create_pull_request, publish_steps, remove_repo_dir, git_run, log.
  footprint.
Qed.

Lemma update_only id st c : only update_event (update_incident_state E id st c).
Proof. unfold update_incident_state, log. footprint. Qed.

(** One call of [update_incident_state] issues one PATCH request, with
    the state and the comment it was given, and never raises. *)
Lemma update_run id st c s :
  exists s1 ev,
    update_incident_state E id st c s = (s1, ev, Ok tt) /\
    filter is_update ev = [SnPatch id (update_data st c)].
Proof.
  unfold update_incident_state, try_except, bind, log, emit, lift.
  destruct (sn_patch E) as [r|e]; simpl.
  - destruct (raise_for_status r) as [[]|e]; simpl;
      [|destruct (is_http_error e); simpl];
      do 2 eexists; (split; [reflexivity|reflexivity]).
  - destruct (is_http_error e); simpl;
      do 2 eexists; (split; [reflexivity|reflexivity]).
Qed.

(** The [finally] block leaves no directory at [repo_dir], unless the
    removal fails: then it raises [OSError] and the directory is still
    there. *)
Lemma remove_repo_dir_run s s1 ev r :
  remove_repo_dir E s = (s1, ev, r) ->
  (r = Ok tt /\ isdir repo_dir s1 = false) \/
  (r = Raise OSError /\ isdir repo_dir s1 = true /\ ev = [Rmtree repo_dir] /\
   (s1 repo_dir = Some DirLink \/ rmtree_stop E repo_dir <> None)).
Proof.
  unfold remove_repo_dir, bind, path_isdir.
  destruct (isdir repo_dir s) eqn:D.
  - destruct (rmtree (rmtree_stop E repo_dir) repo_dir s) as [[s2 ev2] r2] eqn:R.
    destruct (rmtree_run _ _ _ D R) as (-> & [(-> & -> & _)|(-> & H1 & H2)]);
      intros [= <- <- <-].
    + left. split; [reflexivity|apply isdir_remove_tree].
    + right. auto.
  - intros [= <- <- <-]. left. auto.
Qed.

(** C4 (amended): the [finally] block runs however the [try] block of
    [create_pull_request] is left - a returned handle, [None] after a
    rejected pull request, an exception of the clone, the branch, the
    write, the commit, the push or the request - and removes the
    directory at [repo_dir], unless the removal itself fails.  A
    directory is at [repo_dir] when the call is over only if
    [shutil.rmtree] was the last thing the call did and it raised: the
    call ends with that [OSError], whatever the [try] block had returned
    or raised, and [repo_dir] is a symbolic link or the operating system
    stopped the removal.  Whenever the call returns a value, the
    directory is gone. *)
Theorem publish_cleanup b f c s :
  (isdir repo_dir (final_fs (create_pull_request E b f c s)) = true ->
   outcome (create_pull_request E b f c s) = Raise OSError /\
   (exists ev,
      events (create_pull_request E b f c s) = ev ++ [Rmtree repo_dir]) /\
   (final_fs (create_pull_request E b f c s) repo_dir = Some DirLink \/
    rmtree_stop E repo_dir <> None)) /\
  (forall v,
     outcome (create_pull_request E b f c s) = Ok v ->
     isdir repo_dir (final_fs (create_pull_request E b f c s)) = false).
Proof.
  unfold create_pull_request, try_finally.
  destruct (publish_steps E b f c s) as [[s1 ev1] r].
  destruct (remove_repo_dir E s1) as [[s2 ev2] r2] eqn:R.
  destruct (remove_repo_dir_run _ R) as [(-> & D)|(-> & D & -> & H)];
    cbn [final_fs events outcome fst snd].
  - split; [congruence|]. intros _ _. exact D.
  - split; [|discriminate]. intros _. split; [reflexivity|].
    split; [now exists ev1|exact H].
Qed.

(** [ask_openai] always sends its request; its result is the stripped
    text of the first choice. *)
Lemma draft_run_inv d s s1 ev r :
  ask_openai E d s = (s1, ev, r) ->
  Forall (fun e => draft_event e = true) ev /\
  In (Chat (AskPlaybook d)) ev /\
  r = draft_outcome E.
Proof.
  intros H. split; [exact (@only_run _ _ _ _ _ _ _ (draft_only d) H)|].
  revert H. unfold ask_openai, draft_outcome, bind, log, emit, lift, ret.
  destruct (chat_generate E) as [a|e]; cbn.
  - destruct (message_content a); cbn; intros [= <- <- <-]; cbn; auto.
  - intros [= <- <- <-]; cbn; auto.
Qed.

(** The [try] block of [create_pull_request] returns a value only after
    posting the request, and once the request is posted its result is the
    one of the request. *)
Lemma publish_steps_inv b f c s s1 ev r :
  publish_steps E b f c s = (s1, ev, r) ->
  (forall v, r = Ok v -> In (PrPost b) ev) /\
  (forall b', In (PrPost b') ev -> r = pr_outcome E).
Proof.
  unfold publish_steps, git_run, effect, pr_outcome, bind, log, emit, lift, ret.
  repeat (split_scrutinee; cbn [events outcome final_fs fst snd app]);
    subst.
  all: intros [= <- <- <-]; split;
    [intros v Hv; try discriminate Hv; pick
    |intros b' Hin; in_cases Hin; reflexivity].
Qed.

(** [create_pull_request] returns a value only after posting the
    request.  Once the request is posted and the working copy removed,
    its result is the one of the request; when the working copy could not
    be removed, its result is the [OSError] of the removal. *)
Lemma publish_run_inv b f c s s1 ev r :
  create_pull_request E b f c s = (s1, ev, r) ->
  Forall (fun e => publish_event e = true) ev /\
  (forall v, r = Ok v -> In (PrPost b) ev) /\
  (forall b', In (PrPost b') ev -> isdir repo_dir s1 = false ->
              r = pr_outcome E) /\
  (isdir repo_dir s1 = true ->
   r = Raise OSError /\ In (Rmtree repo_dir) ev /\
   (s1 repo_dir = Some DirLink \/ rmtree_stop E repo_dir <> None)).
Proof.
  intros H. split; [exact (@only_run _ _ _ _ _ _ _ (publish_only b f c) H)|].
  revert H. unfold create_pull_request, try_finally.
  destruct (publish_steps E b f c s) as [[s2 ev2] r2] eqn:P.
  destruct (publish_steps_inv _ _ _ _ P) as (Hok & Hpost).
  destruct (remove_repo_dir E s2) as [[s3 ev3] r3] eqn:R.
  pose proof (@only_run _ _ _ _ _ _ _ cleanup_only R) as F.
  destruct (remove_repo_dir_run _ R) as [(-> & D)|(-> & D & -> & Hwhy)];
    intros [= <- <- <-].
  - split; [intros v Hv; apply in_or_app; left; now apply (Hok v)|].
    split; [|congruence].
    intros b' Hin _. apply in_app_or in Hin as [Hin|Hin]; [now apply (Hpost b')|].
    in_cases Hin.
  - split; [discriminate|]. split; [congruence|]. intros _.
    split; [reflexivity|]. split; [|exact Hwhy].
    apply in_or_app. right. now left.
Qed.

(** The ticketing calls leave the file system alone. *)
Lemma update_fs id st c s s1 ev r :
  update_incident_state E id st c s = (s1, ev, r) -> s1 = s.
Proof.
  unfold update_incident_state, try_except, bind, log, emit, lift.
  repeat (split_scrutinee; cbn [fst snd app]); subst;
    repeat match goal with
           | H : (_, _, _) = (_, _, _) |- _ => injection H as <- <- <-
           | H : (_, _) = (_, _) |- _ => injection H as <- <-
           end;
    try discriminate; now intros [= <- _ _].
Qed.

Lemma fetch_fs s s1 ev r :
  get_most_recent_incident E s = (s1, ev, r) -> s1 = s.
Proof.
  unfold get_most_recent_incident, fetch_incident, try_except, bind, log,
    emit, lift, ret.
  repeat (split_scrutinee; cbn [fst snd app]); subst;
    repeat match goal with
           | H : (_, _, _) = (_, _, _) |- _ => injection H as <- <- <-
           | H : (_, _) = (_, _) |- _ => injection H as <- <-
           end;
    try discriminate; now intros [= <- _ _].
Qed.

Lemma update_run_inv id st c s s1 ev r :
  update_incident_state E id st c s = (s1, ev, r) ->
  r = Ok tt /\
  filter is_update ev = [SnPatch id (update_data st c)] /\
  Forall (fun e => update_event e = true) ev.
Proof.
  intros H. pose proof (@only_run _ _ _ _ _ _ _ (update_only id st c) H) as F.
  destruct (update_run id st c s) as (s2 & ev2 & H2 & Hf).
  rewrite H in H2. injection H2 as -> -> ->. auto.
Qed.

End Footprints.

(* ================================================================== *)
(** ** One iteration of the loop *)

(** Records, for each run of an operation in the context, which events
    it emitted and what it returned. *)
Ltac note_runs :=
  repeat match goal with
  | H : get_most_recent_incident ?E ?s = (_, ?ev, _) |- _ =>
      lazymatch goal with
      | _ : Forall _ ev |- _ => fail
      | _ => pose proof (@only_run _ _ _ _ _ _ _ (fetch_only E) H)
      end
  | H : search_existing_playbooks ?E ?d ?s = (_, ?ev, _) |- _ =>
      lazymatch goal with
      | _ : Forall _ ev |- _ => fail
      | _ => pose proof (@only_run _ _ _ _ _ _ _ (search_only E d) H)
      end
  | H : ask_openai ?E ?d ?s = (_, ?ev, _) |- _ =>
      lazymatch goal with
      | _ : Forall _ ev |- _ => fail
      | _ => destruct (draft_run_inv _ _ _ H) as (? & ? & ?)
      end
  | H : create_pull_request ?E ?b ?f ?c ?s = (_, ?ev, _) |- _ =>
      lazymatch goal with
      | _ : Forall _ ev |- _ => fail
      | _ => destruct (publish_run_inv _ _ _ _ _ H) as (? & ? & ? & ?)
      end
  | H : update_incident_state ?E ?i ?st ?c ?s = (_, ?ev, _) |- _ =>
      lazymatch goal with
      | _ : Forall _ ev |- _ => fail
      | _ => destruct (update_run_inv _ _ _ _ _ H) as (? & ? & ?)
      end
  end.

(** Runs [iteration] symbolically: one goal per path through the loop
    body, with the runs of the operations as hypotheses. *)
Ltac run_cycle :=
  unfold iteration, process_try, try_except, bind, log, sleep, emit, lift, ret;
  repeat (split_scrutinee; cbn [events outcome final_fs fst snd app negb]);
  subst; note_runs; try discriminate;
  repeat match goal with
         | H : forall v, Ok ?a = Ok v -> _ |- _ => specialize (H a eq_refl)
         | H : forall v, Raise _ = Ok v -> _ |- _ => clear H
         end;
  cbn [app]; rewrite ?app_nil_r, <- ?app_assoc; cbn [app].

(** Rewrites [filter P] over the segments of a trace. *)
Ltac filter_runs P :=
  repeat match goal with
  | H : Forall (fun e => ?Q e = true) ?ev |- context [filter P ?ev] =>
      rewrite (@only_filter Q P ev) by (assumption || by_event_class)
  | |- context [filter P (_ ++ _)] => rewrite filter_app
  | |- context [filter P (_ :: _)] => cbn [filter P]
  | H : filter P ?ev = _ |- context [filter P ?ev] => rewrite H
  end; cbn [app filter].

(** A trace without its last event. *)
Ltac front t :=
  lazymatch t with
  | [_] => constr:(@nil event)
  | ?l ++ [_] => constr:(l)
  | ?a :: ?r => let p := front r in constr:(a :: p)
  | ?l ++ ?r => let p := front r in constr:(l ++ p)
  end.

Section Cycle.

Variable E : env.

(** C1: in every iteration of the loop, whatever the environment
    answers, [update_incident_state] issues at most one PATCH request.
    When it issues one, the iteration took exactly one of two paths: the
    matched path (an existing playbook was found; the update carries the
    comment, nothing was drafted or published) or the generated path (a
    playbook was drafted, the pull request was posted and its handle
    read; the update carries no comment) - never both. *)
Theorem one_update_per_cycle (s : fs) :
  let ev := events (iteration E s) in
  (length (filter is_update ev) <= 1)%nat /\
  forall id data,
    In (SnPatch id data) ev -> matched_path ev data \/ generated_path ev data.
Proof.
  cbv zeta. unfold matched_path, generated_path. run_cycle.
  all: split; [filter_runs is_update; simpl; lia|intros id data Hin].
  all: in_cases Hin.
  all: match goal with
       | F : filter is_update ?l = [_], H : In _ ?l |- _ =>
           pose proof (@in_filter_single _ _ _ _ F H eq_refl) as Hx;
           injection Hx as <- <-
       end.
  - left. split; [reflexivity|]. split; [pick|].
    split; [filter_runs is_publish; reflexivity|].
    split; intros x Hx; in_cases Hx.
  - right. split; [reflexivity|]. split; [intros Hx; in_cases Hx|].
    split; [eexists; pick|]. split; [eexists; pick|eexists; pick].
Qed.

(** No exception leaves an iteration: the loop goes on. *)
Lemma iteration_never_raises (s : fs) : outcome (iteration E s) = Ok tt.
Proof. run_cycle; reflexivity. Qed.

Lemma pr_outcome_rejected (r : http_response) :
  pr_post E = Ok r -> status_code r <> 201%Z -> pr_outcome E = Ok VNone.
Proof.
  intros H Hs. unfold pr_outcome. rewrite H.
  destruct (Z.eqb_spec (status_code r) 201); [contradiction|reflexivity].
Qed.

Lemma pr_outcome_created (r : http_response) :
  pr_post E = Ok r -> status_code r = 201%Z -> pr_outcome E = json r.
Proof. intros H Hs. unfold pr_outcome. now rewrite H, Hs. Qed.

(** For the run of [create_pull_request] of the context that posted its
    request: either the working copy could not be removed and the call
    raised, or it returned what the request returned. *)
Ltac posted Hout :=
  repeat match goal with
         | Hu : update_incident_state _ _ _ _ _ = _ |- _ =>
             apply update_fs in Hu; subst
         end;
  match goal with
  | Hp : forall b', In (PrPost b') ?l -> isdir repo_dir ?s1 = false -> _,
    Hr : isdir repo_dir ?s1 = true -> _,
    Hin : In (PrPost _) ?l |- _ =>
      destruct (isdir repo_dir s1) eqn:?;
      [ destruct (Hr eq_refl) as (Hr' & ? & ?); clear Hr Hp;
        try discriminate Hr'; try (injection Hr' as ->)
      | specialize (Hp _ Hin eq_refl); rewrite Hout in Hp; clear Hr;
        try discriminate Hp; try (injection Hp as ->) ]
  end.

(** C7 (amended): when the pull request API answers with a status other
    than 201, [create_pull_request] returns [None] once its [finally]
    block has removed the working copy; when the removal fails, the call
    raises the [OSError] of the removal instead.  The iteration in which
    this happens issues no PATCH request and logs an error in either
    case: 'Failed to create pull request.' after [None], 'Error
    processing request' with the [OSError] after a failed removal. *)
Theorem rejected_pull_request (r : http_response) :
  pr_post E = Ok r -> status_code r <> 201%Z ->
  (forall b f c s,
     In (PrPost b) (events (create_pull_request E b f c s)) ->
     (isdir repo_dir (final_fs (create_pull_request E b f c s)) = false ->
      outcome (create_pull_request E b f c s) = Ok VNone) /\
     (isdir repo_dir (final_fs (create_pull_request E b f c s)) = true ->
      outcome (create_pull_request E b f c s) = Raise OSError)) /\
  (forall s b,
     In (PrPost b) (events (iteration E s)) ->
     filter is_update (events (iteration E s)) = [] /\
     outcome (iteration E s) = Ok tt /\
     (isdir repo_dir (final_fs (iteration E s)) = false ->
      In (Log ERROR MsgFailedPr) (events (iteration E s))) /\
     (isdir repo_dir (final_fs (iteration E s)) = true ->
      In (Log ERROR (MsgErrorProcessing OSError)) (events (iteration E s)) /\
      ~ In (Log ERROR MsgFailedPr) (events (iteration E s)))).
Proof.
  intros Hr Hs. pose proof (pr_outcome_rejected Hr Hs) as Hout. split.
  - intros b f c s.
    destruct (create_pull_request E b f c s) as [[s1 ev] r0] eqn:Hc.
    destruct (publish_run_inv _ _ _ _ _ Hc) as (_ & _ & Hp & Hraise).
    cbn [events outcome final_fs fst snd]. intros Hin. split.
    + intros D. now rewrite (Hp _ Hin D).
    + intros D. now destruct (Hraise D).
  - intros s b. run_cycle.
    all: intros Hin; in_cases Hin; posted Hout.
    all: try match goal with
             | H : truthy VNone = true |- _ => discriminate H
             end.
    all: split; [filter_runs is_update; reflexivity|].
    all: split; [reflexivity|].
    all: split; intros D; try discriminate D.
    + pick.
    + split; [pick|]. intros Hx. in_cases Hx.
Qed.

Lemma subscript_key_truthy (v : pyval) (k : pystr) (u : pyval) :
  subscript_key v k = Ok u -> truthy v = true.
Proof.
  destruct v as [| | | | |d]; try discriminate.
  destruct d; [discriminate|reflexivity].
Qed.

(** C10 (amended): when the pull request API answers 201 with the JSON
    body [body] and the working copy has been removed, the iteration
    reads [body['html_url']] only if [body] is truthy.  If the field is
    there, it is logged before the one PATCH request of the iteration,
    which carries no comment.  If the lookup would raise [e], no PATCH
    request is issued: for a truthy [body] the lookup does raise and the
    iteration ends in the [except] handler; for a falsy [body] (an empty
    object, say) nothing is looked up and the iteration logs 'Failed to
    create pull request.'  When the working copy could not be removed,
    the body is lost with the [OSError] of the removal: nothing is looked
    up or logged as created, and no PATCH request is issued. *)
Theorem created_pull_request_handle (r : http_response) (body : pyval) :
  pr_post E = Ok r -> status_code r = 201%Z -> json r = Ok body ->
  forall s b,
    In (PrPost b) (events (iteration E s)) ->
    (isdir repo_dir (final_fs (iteration E s)) = false ->
     (forall html_url,
        subscript_key body (py "html_url") = Ok html_url ->
        exists pre post id,
          events (iteration E s)
          = pre ++ Log INFO (MsgPrCreated html_url) :: post /\
          filter is_update pre = [] /\
          filter is_update post
          = [SnPatch id (update_data AWAITING_USER_INFO_STATE_ID None)]) /\
     (forall e,
        subscript_key body (py "html_url") = Raise e ->
        filter is_update (events (iteration E s)) = [] /\
        (truthy body = true ->
         In (Log ERROR (MsgErrorProcessing e)) (events (iteration E s))) /\
        (truthy body = false ->
         In (Log ERROR MsgFailedPr) (events (iteration E s))))) /\
    (isdir repo_dir (final_fs (iteration E s)) = true ->
     filter is_update (events (iteration E s)) = [] /\
     In (Log ERROR (MsgErrorProcessing OSError)) (events (iteration E s)) /\
     (forall html_url,
        ~ In (Log INFO (MsgPrCreated html_url)) (events (iteration E s))) /\
     ~ In (Log ERROR MsgFailedPr) (events (iteration E s))).
Proof.
  intros Hr Hs Hj.
  assert (pr_outcome E = Ok body) as Hout
    by (rewrite (pr_outcome_created Hr Hs); exact Hj).
  intros s b. run_cycle.
  all: intros Hin; in_cases Hin; posted Hout.
  all: split; intros D; try discriminate D.
  all: try (split; [intros u Hu|intros e' He']).
  all: try congruence.
  all: try (apply subscript_key_truthy in Hu; congruence).
  all: try match goal with
           | H1 : subscript_key ?v ?k = _, H2 : subscript_key ?v ?k = _ |- _ =>
               rewrite H1 in H2; injection H2 as <-
           end.
  - match goal with
    | |- exists pre post id,
           ?a :: ?l ++ ?l0 ++ ?l1 ++ ?l2 ++ _ :: ?l3 ++ ?t = _ /\ _ =>
        exists (a :: l ++ l0 ++ l1 ++ l2), (l3 ++ t)
    end.
    eexists. split; [cbn [app]; now rewrite <- !app_assoc|].
    split; filter_runs is_update; reflexivity.
  - split; [filter_runs is_update; reflexivity|].
    split; intros Ht; [pick|congruence].
  - split; [filter_runs is_update; reflexivity|].
    split; intros Ht; [congruence|pick].
  - split; [filter_runs is_update; reflexivity|].
    split; [pick|]. split; [intros u Hx|intros Hx]; in_cases Hx.
Qed.

Lemma draft_outcome_run d s : outcome (ask_openai E d s) = draft_outcome E.
Proof.
  destruct (ask_openai E d s) as [[s1 ev] r] eqn:H.
  now destruct (draft_run_inv _ _ _ H) as (_ & _ & ->).
Qed.



(** C8: a failure of the ticketing query does not leave the loop.  When
    [requests.get] raises an exception other than [HTTPError] (the
    network failed), and when the answer has a 4xx or 5xx status (so
    that [raise_for_status] raises [HTTPError]), the [try] block of
    [get_most_recent_incident] fails with that error, the handler logs
    it, and the iteration is exactly: log the error, log 'No incidents
    found.', sleep 5 seconds - no PATCH request, no exception. *)
Theorem fetch_failure_skips_cycle :
  (forall e s,
     sn_get E = Raise e -> is_http_error e = false ->
     outcome (fetch_incident E s) = Raise e /\
     iteration E s
     = (s,
        [Log INFO MsgStartCycle; Log INFO MsgCallingServiceNow; SnQuery;
         Log ERROR (MsgOtherError e); Log INFO MsgNoIncidents; Sleep 5],
        Ok tt)) /\
  (forall r s,
     sn_get E = Ok r -> (400 <= status_code r < 600)%Z ->
     outcome (fetch_incident E s) = Raise HTTPError /\
     iteration E s
     = (s,
        [Log INFO MsgStartCycle; Log INFO MsgCallingServiceNow; SnQuery;
         Log INFO (MsgSnStatus (status_code r));
         Log ERROR (MsgHttpError HTTPError); Log INFO MsgNoIncidents; Sleep 5],
        Ok tt)).
Proof.
  split.
  - intros e s He Hh.
    unfold iteration, process_try, get_most_recent_incident, fetch_incident,
      try_except, bind, log, sleep, emit, lift, ret.
    rewrite He. cbn. rewrite Hh. cbn. split; reflexivity.
  - intros r s Hr Hs.
    assert (raise_for_status r = Raise HTTPError) as Hrs.
    { unfold raise_for_status.
      destruct (Z.leb_spec 400 (status_code r)); [|lia].
      destruct (Z.ltb_spec (status_code r) 600); [reflexivity|lia]. }
    unfold iteration, process_try, get_most_recent_incident, fetch_incident,
      try_except, bind, log, sleep, emit, lift, ret.
    rewrite Hr. cbn. rewrite Hrs. cbn. split; reflexivity.
Qed.

(** Every path through the loop body but the matched one ends with
    the one [time.sleep(5)] of the iteration; the matched path, left by
    [continue] right after the update, does not sleep at all. *)
Lemma sleep_unless_matched (s : fs) :
  (In (Log INFO MsgFoundExisting) (events (iteration E s)) /\
   filter is_sleep (events (iteration E s)) = [])
  \/
  (~ In (Log INFO MsgFoundExisting) (events (iteration E s)) /\
   exists pre,
     events (iteration E s) = pre ++ [Sleep 5] /\ filter is_sleep pre = []).
Proof.
  run_cycle.
  all: first
    [ left; split; [pick|filter_runs is_sleep; reflexivity]
    | right; split; [intros Hin; in_cases Hin|] ].
  all: match goal with
       | |- exists pre, ?l = _ /\ _ => let p := front l in exists p
       end.
  all: split;
    [repeat (progress (cbn [app]; rewrite <- ?app_assoc)); reflexivity|].
  all: filter_runs is_sleep; reflexivity.
Qed.

End Cycle.

(* ================================================================== *)
(** ** The search for an existing playbook *)

Section Search.

Variable E : env.
Variable description : pyval.

Lemma match_loop_step (i : nat) (playbook : pystr) (rest : list pystr) (s : fs) :
  outcome (match_loop E description i (playbook :: rest) s) =
  match judged E i playbook with
  | Ok true => Ok (VStr playbook)
  | Ok false => outcome (match_loop E description (S i) rest s)
  | Raise e => Raise e
  end.
Proof.
  cbn [match_loop]. unfold judged, bind, emit, lift, ret.
  destruct (chat_match E i playbook) as [response|e]; cbn; [|reflexivity].
  destruct (message_content response) as [evaluation|e]; cbn; [|reflexivity].
  destruct (occurs _ (lower E evaluation)); cbn; [reflexivity|].
  now destruct (match_loop E description (S i) rest s) as [[? ?] ?].
Qed.

Lemma match_loop_first (catalog : list pystr) :
  forall i k playbook s,
    nth_error catalog k = Some playbook ->
    judged E (i + k) playbook = Ok true ->
    (forall j q, j < k -> nth_error catalog j = Some q ->
                 judged E (i + j) q = Ok false) ->
    outcome (match_loop E description i catalog s) = Ok (VStr playbook).
Proof.
  induction catalog as [|p rest IH]; intros i k playbook s Hk Hyes Hno.
  - destruct k; discriminate.
  - rewrite match_loop_step. destruct k as [|k].
    + injection Hk as ->. rewrite Nat.add_0_r in Hyes. now rewrite Hyes.
    + rewrite <- (Nat.add_0_r i), (Hno 0 p) by (reflexivity || lia).
      rewrite Nat.add_0_r.
      apply (IH (S i) k); [exact Hk|now rewrite Nat.add_succ_comm|].
      intros j q Hj Hq. rewrite Nat.add_succ_comm.
      apply Hno; [lia|exact Hq].
Qed.

Lemma match_loop_none (catalog : list pystr) :
  forall i s,
    (forall j q, nth_error catalog j = Some q -> judged E (i + j) q = Ok false) ->
    outcome (match_loop E description i catalog s) = Ok VNone.
Proof.
  induction catalog as [|p rest IH]; intros i s Hno; [reflexivity|].
  rewrite match_loop_step.
  rewrite <- (Nat.add_0_r i), (Hno 0 p) by reflexivity.
  rewrite Nat.add_0_r. apply IH.
  intros j q Hq. rewrite Nat.add_succ_comm. now apply Hno.
Qed.

Lemma search_outcome (catalog : list pystr) (s : fs) :
  outcome (clone_existing_playbooks_repo E s) = Ok tt ->
  read_playbooks (walk E) = Ok catalog ->
  outcome (search_existing_playbooks E description s) =
  outcome (match_loop E description 0 catalog
             (final_fs (clone_existing_playbooks_repo E s))).
Proof.
  intros Hc Hr. unfold search_existing_playbooks, bind at 1.
  destruct (clone_existing_playbooks_repo E s) as [[s1 ev1] r1].
  cbn in Hc. subst r1. unfold bind, log, emit, lift. rewrite Hr.
  cbn [final_fs fst].
  now destruct (match_loop E description 0 catalog s1) as [[? ?] ?].
Qed.

(** C5: when the catalog has been cloned and read, and the classifier
    gives a judgment for the entries up to the first match, the search
    returns the earliest entry judged a match, in catalog order; it
    returns [None] when every entry is judged not to match, and so for an
    empty catalog. *)
Theorem first_match_wins (catalog : list pystr) (s : fs) :
  outcome (clone_existing_playbooks_repo E s) = Ok tt ->
  read_playbooks (walk E) = Ok catalog ->
  (forall k playbook,
     nth_error catalog k = Some playbook ->
     judged E k playbook = Ok true ->
     (forall j q, j < k -> nth_error catalog j = Some q ->
                  judged E j q = Ok false) ->
     outcome (search_existing_playbooks E description s) = Ok (VStr playbook))
  /\
  ((forall j q, nth_error catalog j = Some q -> judged E j q = Ok false) ->
   outcome (search_existing_playbooks E description s) = Ok VNone).
Proof.
  intros Hc Hr. rewrite (search_outcome _ Hc Hr). split.
  - intros k playbook Hk Hyes Hno.
    now apply (@match_loop_first catalog 0 k).
  - intros Hno. now apply match_loop_none.
Qed.

End Search.

(* ================================================================== *)
(** ** The scenarios of the specification, run *)

(** Finds the element of a computed trace. *)
Ltac find_event := vm_compute; repeat first [left; reflexivity|right].

(** Refutes the membership of an event in a computed trace. *)
Ltac no_event H :=
  vm_compute in H;
  repeat match type of H with
         | _ \/ _ => destruct H as [H|H]; [discriminate H|]
         end;
  try discriminate H; try contradiction H.

(** C2 (the code misses it): two iterations that both find a matching
    playbook start one right after the other - the trace of the two
    cycles holds no [Sleep] at all, although every other path through the
    loop body sleeps 5 seconds (see [sleep_unless_matched]). *)
Theorem matched_cycle_does_not_sleep :
  let ev := events (process_incidents (fun _ => matched_env) 2 empty_fs) in
  length (filter is_cycle_start ev) = 2%nat /\
  length (filter is_update ev) = 2%nat /\
  filter is_sleep ev = [].
Proof. cbv zeta. repeat split; vm_compute; reflexivity. Qed.

(** Scenario A: the generated path. *)
Lemma one_update_per_cycle_witness :
  In (SnPatch (VStr (py "a1b2c3")) (update_data AWAITING_USER_INFO_STATE_ID None))
    (events (iteration generated_env empty_fs)) /\
  (matched_path (events (iteration generated_env empty_fs))
     (update_data AWAITING_USER_INFO_STATE_ID None) \/
   generated_path (events (iteration generated_env empty_fs))
     (update_data AWAITING_USER_INFO_STATE_ID None)).
Proof.
  split.
  - find_event.
  - apply (proj2 (one_update_per_cycle generated_env empty_fs)
             (VStr (py "a1b2c3"))).
    find_event.
Defined.

(** Property P2: entries 2 and 4 of five match, entry 2 is returned. *)
Lemma first_match_wins_witness :
  read_playbooks (walk five_env)
  = Ok [py "one"; py "two"; py "three"; py "four"; py "five"] /\
  judged five_env 1 (py "two") = Ok true /\
  judged five_env 3 (py "four") = Ok true /\
  outcome (search_existing_playbooks five_env node7 empty_fs)
  = Ok (VStr (py "two")).
Proof.
  split; [reflexivity|]. split; [reflexivity|]. split; [reflexivity|].
  apply (proj1 (@first_match_wins five_env node7
                  [py "one"; py "two"; py "three"; py "four"; py "five"]
                  empty_fs eq_refl eq_refl) 1%nat (py "two")).
  - reflexivity.
  - reflexivity.
  - intros j q Hj Hq. destruct j as [|j]; [reflexivity|lia].
Defined.



(** Scenario D with a rejected request: HTTP 422, with a working copy
    that is removed and with one that is not. *)
Lemma rejected_pull_request_witness :
  pr_post pr_rejected_env
  = Ok (response 422 (Ok (VDict [(py "message", VStr (py "Validation Failed"))]))) /\
  filter is_update (events (iteration pr_rejected_env empty_fs)) = [] /\
  In (Log ERROR MsgFailedPr) (events (iteration pr_rejected_env empty_fs)) /\
  In (Log ERROR (MsgErrorProcessing OSError))
    (events (iteration locked_rejected_env empty_fs)).
Proof.
  split; [reflexivity|].
  destruct (proj2 (@rejected_pull_request pr_rejected_env _ eq_refl
                     ltac:(cbn; lia))
              empty_fs generated_branch ltac:(find_event))
    as (Hu & _ & Hgone & _).
  destruct (proj2 (@rejected_pull_request locked_rejected_env _ eq_refl
                     ltac:(cbn; lia))
              empty_fs generated_branch ltac:(find_event))
    as (_ & _ & _ & Hstays).
  split; [exact Hu|]. split; [exact (Hgone eq_refl)|].
  exact (proj1 (Hstays eq_refl)).
Defined.

(** C7 as stated fails when the working copy cannot be removed: the
    pull request API answers 422, [create_pull_request] logs the failed
    request, and then the [shutil.rmtree] of its [finally] block raises.
    The call raises [OSError] where it would have returned [None]; the
    loop logs 'Error processing request', not 'Failed to create pull
    request.' *)
Lemma rejected_pull_request_raises :
  pr_post locked_rejected_env
  = Ok (response 422 (Ok (VDict [(py "message", VStr (py "Validation Failed"))]))) /\
  In (PrPost generated_branch)
    (events (create_pull_request locked_rejected_env generated_branch
               file_path marker empty_fs)) /\
  In (Log ERROR (MsgPrFailed []))
    (events (create_pull_request locked_rejected_env generated_branch
               file_path marker empty_fs)) /\
  outcome (create_pull_request locked_rejected_env generated_branch
             file_path marker empty_fs) = Raise OSError /\
  In (Log ERROR (MsgErrorProcessing OSError))
    (events (iteration locked_rejected_env empty_fs)) /\
  ~ In (Log ERROR MsgFailedPr) (events (iteration locked_rejected_env empty_fs)).
Proof.
  split; [reflexivity|]. split; [find_event|]. split; [find_event|].
  split; [reflexivity|]. split; [find_event|].
  intros H. no_event H.
Qed.

(** The working copy that cannot be removed: the request is created, the
    removal raises, the directory stays. *)
Lemma publish_cleanup_witness :
  isdir repo_dir
    (final_fs (create_pull_request locked_generated_env generated_branch
                 file_path marker empty_fs)) = true /\
  outcome (create_pull_request locked_generated_env generated_branch
             file_path marker empty_fs) = Raise OSError.
Proof.
  split; [reflexivity|].
  apply (proj1 (publish_cleanup locked_generated_env generated_branch
                  file_path marker empty_fs) eq_refl).
Defined.

(** C4 as stated fails when [shutil.rmtree] fails in the [finally]
    block.  With a working copy that the operating system does not let
    go, every step works, the pull request is created - and the
    directory is still there when the call ends, with [OSError].  With
    [repo] a symbolic link to a directory, the clone fails,
    [os.path.isdir] follows the link, [shutil.rmtree] refuses it, and
    the link is still there. *)
Lemma publish_leaves_repo_dir :
  (In (PrPost generated_branch)
     (events (create_pull_request locked_generated_env generated_branch
                file_path marker empty_fs)) /\
   outcome (create_pull_request locked_generated_env generated_branch
              file_path marker empty_fs) = Raise OSError /\
   isdir repo_dir
     (final_fs (create_pull_request locked_generated_env generated_branch
                  file_path marker empty_fs)) = true) /\
  (events (create_pull_request clone_fails_env generated_branch
             file_path marker linked_repo_fs)
   = [Log INFO MsgCloning; Git (CloneFrom repo_url repo_dir);
      Rmtree repo_dir] /\
   outcome (create_pull_request clone_fails_env generated_branch
              file_path marker linked_repo_fs) = Raise OSError /\
   isdir repo_dir
     (final_fs (create_pull_request clone_fails_env generated_branch
                  file_path marker linked_repo_fs)) = true).
Proof.
  split; (split; [|split; reflexivity]); [find_event|reflexivity].
Qed.

(** Scenario C (HTTP 500) and an unreachable backend. *)
Lemma fetch_failure_skips_cycle_witness :
  outcome (fetch_incident network_down_env empty_fs) = Raise ConnectionError /\
  outcome (fetch_incident backend_error_env empty_fs) = Raise HTTPError /\
  filter is_update (events (iteration backend_error_env empty_fs)) = [] /\
  outcome (iteration backend_error_env empty_fs) = Ok tt.
Proof.
  destruct (fetch_failure_skips_cycle network_down_env) as [Hnet _].
  destruct (fetch_failure_skips_cycle backend_error_env) as [_ Hhttp].
  destruct (Hnet ConnectionError empty_fs eq_refl eq_refl) as [H1 _].
  destruct (Hhttp (response 500 (Raise JSONDecodeError)) empty_fs eq_refl)
    as [H2 H3]; [cbn; lia|].
  split; [exact H1|]. split; [exact H2|]. rewrite H3. split; reflexivity.
Defined.

(** A created pull request whose body has no [html_url]. *)
Lemma created_pull_request_handle_witness :
  subscript_key (VDict [(py "number", VInt 7)]) (py "html_url") = Raise KeyError /\
  filter is_update (events (iteration pr_no_url_env empty_fs)) = [] /\
  In (Log ERROR (MsgErrorProcessing KeyError))
    (events (iteration pr_no_url_env empty_fs)).
Proof.
  split; [reflexivity|].
  destruct (@created_pull_request_handle pr_no_url_env _ _ eq_refl eq_refl
              eq_refl empty_fs (py "generated-playbook-20240101120000"))
    as [H _]; [find_event|].
  destruct (proj2 (H eq_refl) KeyError eq_refl) as (Hu & Ht & _).
  split; [exact Hu|exact (Ht eq_refl)].
Defined.

(** C10 as stated fails for a falsy body: with the empty JSON object the
    field is missing, yet nothing is looked up and nothing is raised; the
    iteration takes the publish-failure branch. *)
Lemma empty_handle_is_not_looked_up :
  pr_post pr_empty_body_env = Ok (response 201 (Ok (VDict []))) /\
  subscript_key (VDict []) (py "html_url") = Raise KeyError /\
  In (PrPost (py "generated-playbook-20240101120000"))
    (events (iteration pr_empty_body_env empty_fs)) /\
  In (Log ERROR MsgFailedPr) (events (iteration pr_empty_body_env empty_fs)) /\
  (forall e, ~ In (Log ERROR (MsgErrorProcessing e))
               (events (iteration pr_empty_body_env empty_fs))).
Proof.
  split; [reflexivity|]. split; [reflexivity|].
  split; [find_event|]. split; [find_event|].
  intros e H. no_event H.
Qed.

(* ================================================================== *)
(** ** More on the formatter *)

Section FormatterMore.

Lemma lstrip_length (s : pystr) : length (lstrip s) <= length s.
Proof.
  induction s as [|c s IH]; simpl; [lia|].
  destruct (isspace c); simpl; lia.
Qed.

Lemma rstrip_length (s : pystr) : length (rstrip s) <= length s.
Proof.
  unfold rstrip. rewrite length_rev.
  pose proof (lstrip_length (rev s)) as H. now rewrite length_rev in H.
Qed.

Lemma lstrip_idem (s : pystr) : lstrip (lstrip s) = lstrip s.
Proof.
  induction s as [|c s IH]; simpl; [reflexivity|].
  destruct (isspace c) eqn:E; [exact IH|]. simpl. now rewrite E.
Qed.

Lemma rstrip_idem (s : pystr) : rstrip (rstrip s) = rstrip s.
Proof. unfold rstrip. now rewrite rev_involutive, lstrip_idem. Qed.

(** Trimming the right end does not uncover whitespace on the left. *)
Lemma lstrip_rstrip_fixed (t : pystr) :
  lstrip t = t -> lstrip (rstrip t) = rstrip t.
Proof.
  intros Ht. destruct (rstrip_prefix t) as [b Hb].
  destruct (rstrip t) as [|c u] eqn:E; [reflexivity|].
  simpl. destruct (isspace c) eqn:Ec; [|reflexivity].
  exfalso. rewrite Hb in Ht. simpl in Ht. rewrite Ec in Ht.
  pose proof (lstrip_length (u ++ b)) as H. rewrite Ht in H.
  simpl in H. lia.
Qed.

Lemma strip_idem (s : pystr) : strip (strip s) = strip s.
Proof.
  unfold strip.
  rewrite (@lstrip_rstrip_fixed (lstrip s) (lstrip_idem s)). apply rstrip_idem.
Qed.

Lemma lstrip_app_space (s : pystr) (c : char) :
  isspace c = true ->
  lstrip (s ++ [c]) = match lstrip s with [] => [] | _ :: _ => lstrip s ++ [c] end.
Proof.
  intros Hc. induction s as [|d s IH]; simpl.
  - now rewrite Hc.
  - destruct (isspace d); [exact IH|reflexivity].
Qed.

Lemma rstrip_app_space (s : pystr) (c : char) :
  isspace c = true -> rstrip (s ++ [c]) = rstrip s.
Proof.
  intros Hc. unfold rstrip. rewrite rev_app_distr. simpl. now rewrite Hc.
Qed.

Lemma strip_app_space (s : pystr) (c : char) :
  isspace c = true -> strip (s ++ [c]) = strip s.
Proof.
  intros Hc. unfold strip. rewrite (@lstrip_app_space s c Hc).
  destruct (lstrip s) as [|d u] eqn:E; [reflexivity|].
  now rewrite rstrip_app_space.
Qed.

(** A stretch without the first character of the pattern is copied. *)
Lemma replace_skip (o : char) (old new a b : pystr) :
  forallb (fun c => negb (N.eqb o c)) a = true ->
  replace (o :: old) new (a ++ b) = a ++ replace (o :: old) new b.
Proof.
  induction a as [|c a IH]; intros H; [reflexivity|].
  simpl in H. apply andb_true_iff in H as [Hc Ha].
  change ((c :: a) ++ b) with (c :: a ++ b). rewrite replace_cons.
  cbn [starts_with]. apply negb_true_iff in Hc. rewrite Hc. cbn [andb].
  cbn [app]. f_equal. now apply IH.
Qed.

Lemma occurs_skip (o : char) (old a b : pystr) :
  forallb (fun c => negb (N.eqb o c)) a = true ->
  occurs (o :: old) (a ++ b) = occurs (o :: old) b.
Proof.
  induction a as [|c a IH]; intros H; [reflexivity|].
  simpl in H. apply andb_true_iff in H as [Hc Ha].
  change ((c :: a) ++ b) with (c :: a ++ b). cbn [occurs starts_with].
  apply negb_true_iff in Hc. rewrite Hc. cbn [andb orb]. now apply IH.
Qed.

Lemma replace_length (o : char) (old s : pystr) :
  length (replace (o :: old) [] s) <= length s.
Proof.
  remember (length s) as n eqn:Hn.
  assert (length s <= n) as Hle by lia. clear Hn.
  revert s Hle. induction n as [|n IH]; intros s Hle.
  - destruct s; [simpl; lia|simpl in Hle; lia].
  - destruct s as [|c s]; [simpl; lia|].
    rewrite replace_cons. simpl in Hle.
    destruct (starts_with _ (c :: s)).
    + cbn [app]. pose proof (length_skipn (length old) s) as Hs.
      assert (length (skipn (length old) s) <= n) as H by lia.
      specialize (IH _ H). lia.
    + cbn [length]. assert (length s <= n) as H by lia.
      specialize (IH _ H). lia.
Qed.

(** X1: a text that holds no code fence is only trimmed and prefixed
    with the marker. *)
Theorem format_unfenced (content : pystr) :
  occurs fence content = false ->
  format_playbook_content content = marker ++ strip content.
Proof.
  intros H. unfold format_playbook_content.
  change fence_yaml with (backtick :: skipn 1 fence_yaml).
  rewrite replace_absent by (apply fence_yaml_absent, H).
  change fence with (backtick :: skipn 1 fence).
  now rewrite replace_absent.
Qed.

Lemma format_unfenced_witness :
  occurs fence (py "  - hosts: all ") = false /\
  format_playbook_content (py "  - hosts: all ")
  = marker ++ py "- hosts: all".
Proof.
  split; [reflexivity|].
  rewrite (@format_unfenced (py "  - hosts: all ") eq_refl). reflexivity.
Defined.

(** X2: a reply that wraps its playbook in a yaml code block - the
    opening fence with its language tag, a newline, a body without
    backticks, a newline, the closing fence - is unwrapped: the document
    is the marker followed by the trimmed body. *)
Theorem format_fenced_block (body : pystr) :
  forallb (fun c => negb (N.eqb backtick c)) body = true ->
  format_playbook_content (fence_yaml ++ newline :: body ++ newline :: fence)
  = marker ++ strip body.
Proof.
  intros Hb. unfold format_playbook_content. f_equal.
  assert (@forallb N (fun c => negb (N.eqb backtick c))
            (newline :: body ++ [newline]) = true) as Hr.
  { apply forallb_forall. intros x [<-|Hx]; [reflexivity|].
    apply in_app_or in Hx as [Hx|[<-|[]]]; [|reflexivity].
    now apply (proj1 (forallb_forall _ _) Hb). }
  assert (newline :: body ++ newline :: fence = (newline :: body ++ [newline]) ++ fence)
    as HR by (cbn [app]; now rewrite <- app_assoc).
  assert (replace fence_yaml [] (fence_yaml ++ newline :: body ++ newline :: fence)
          = newline :: body ++ newline :: fence) as ->.
  { change (fence_yaml ++ newline :: body ++ newline :: fence)
      with (backtick :: skipn 1 fence_yaml ++ newline :: body ++ newline :: fence).
    change fence_yaml with (backtick :: skipn 1 fence_yaml) at 1.
    rewrite replace_cons.
    change (starts_with (backtick :: skipn 1 fence_yaml)
              (backtick :: skipn 1 fence_yaml ++ newline :: body ++ newline :: fence))
      with (starts_with (skipn 1 fence_yaml)
              (skipn 1 fence_yaml ++ newline :: body ++ newline :: fence)).
    rewrite starts_with_app. cbn [app].
    change (skipn (length (skipn 1 fence_yaml))
              (skipn 1 fence_yaml ++ newline :: body ++ newline :: fence))
      with (newline :: body ++ newline :: fence).
    apply replace_absent. rewrite HR.
    change (backtick :: skipn 1 fence_yaml) with (backtick :: skipn 1 fence_yaml).
    now rewrite occurs_skip. }
  rewrite HR. change fence with (backtick :: skipn 1 fence) at 1.
  rewrite replace_skip by exact Hr.
  change (replace (backtick :: skipn 1 fence) [] fence) with (@nil char).
  rewrite app_nil_r.
  change (newline :: body ++ [newline]) with ((newline :: body) ++ [newline]).
  rewrite strip_app_space by reflexivity.
  reflexivity.
Qed.

Lemma format_fenced_block_witness :
  forallb (fun c => negb (N.eqb backtick c)) (py "- hosts: all") = true /\
  format_playbook_content
    (fence_yaml ++ newline :: py "- hosts: all" ++ newline :: fence)
  = marker ++ py "- hosts: all".
Proof.
  split; [reflexivity|].
  rewrite (@format_fenced_block (py "- hosts: all") eq_refl). reflexivity.
Defined.

(** X3: the body of a formatted document is trimmed - it neither starts
    nor ends with whitespace - and the whole document is at most four
    characters (the marker) longer than the raw text. *)
Theorem format_body_trimmed (content : pystr) :
  exists body,
    format_playbook_content content = marker ++ body /\
    strip body = body /\
    length (format_playbook_content content) <= 4 + length content.
Proof.
  exists (strip (replace fence [] (replace fence_yaml [] content))).
  split; [reflexivity|]. split; [apply strip_idem|].
  unfold format_playbook_content. rewrite length_app.
  change (length marker) with 4.
  pose proof (replace_length backtick (skipn 1 fence_yaml) content) as H1.
  pose proof (replace_length backtick (skipn 1 fence)
                (replace fence_yaml [] content)) as H2.
  change (backtick :: skipn 1 fence_yaml) with fence_yaml in *.
  change (backtick :: skipn 1 fence) with fence in *.
  set (t := replace fence [] (replace fence_yaml [] content)) in *.
  pose proof (rstrip_length (lstrip t)) as H3.
  pose proof (lstrip_length t) as H4.
  unfold strip. lia.
Qed.

End FormatterMore.

(* ================================================================== *)
(** ** The ticketing client *)

Section Ticketing.

Variable E : env.

Lemma status_ok (r : http_response) :
  (status_code r < 400 \/ 600 <= status_code r)%Z ->
  raise_for_status r = Ok tt.
Proof.
  intros H. unfold raise_for_status.
  destruct (Z.leb_spec 400 (status_code r));
    destruct (Z.ltb_spec (status_code r) 600); try reflexivity; lia.
Qed.

(** X4: [get_most_recent_incident] never raises, whatever the backend
    answers - a refused connection, an error status, a body that is not
    JSON or not an object, a [result] that cannot be indexed: it returns
    a value or [None], and leaves the file system alone. *)
Theorem fetch_never_raises (s : fs) :
  exists ev v, get_most_recent_incident E s = (s, ev, Ok v).
Proof.
  unfold get_most_recent_incident, fetch_incident, try_except, bind, log,
    emit, lift, ret.
  repeat (split_scrutinee; cbn [fst snd app]); subst;
    repeat match goal with
           | H : (_, _, _) = (_, _, _) |- _ => injection H as <- <- <-
           | H : (_, _) = (_, _) |- _ => injection H as <- <-
           end;
    try discriminate; do 2 eexists; reflexivity.
Qed.

(** X5: from an answer with a success status and a JSON object, the
    first element of its [result] list is returned and the others are
    ignored; with an empty list, or without a [result] key, [None] is
    returned. *)
Theorem fetch_first_or_none (r : http_response) (d : list (pystr * pyval))
    (l : list pyval) (s : fs) :
  sn_get E = Ok r ->
  (status_code r < 400 \/ 600 <= status_code r)%Z ->
  json r = Ok (VDict d) ->
  assoc (py "result") d = Some (VList l) \/
  (assoc (py "result") d = None /\ l = []) ->
  outcome (get_most_recent_incident E s) = Ok (hd VNone l).
Proof.
  intros Hr Hs Hj Hl.
  unfold get_most_recent_incident, fetch_incident, try_except, bind, log,
    emit, lift, ret.
  rewrite Hr. cbn -[py assoc]. rewrite (status_ok _ Hs). cbn -[py assoc].
  rewrite Hj. cbn -[py assoc].
  destruct Hl as [Hl|[Hl ->]]; rewrite Hl; cbn -[py assoc]; [|reflexivity].
  destruct l; reflexivity.
Qed.

(** X6: when the backend reports no incident, the iteration is: the
    query, 'No incidents found.', five seconds of sleep - no error is
    logged, nothing is searched, drafted, published or updated. *)
Theorem empty_backend_cycle (r : http_response) (d : list (pystr * pyval))
    (s : fs) :
  sn_get E = Ok r ->
  (status_code r < 400 \/ 600 <= status_code r)%Z ->
  json r = Ok (VDict d) ->
  assoc (py "result") d = Some (VList []) \/ assoc (py "result") d = None ->
  iteration E s
  = (s,
     [Log INFO MsgStartCycle; Log INFO MsgCallingServiceNow; SnQuery;
      Log INFO (MsgSnStatus (status_code r)); Log INFO (MsgSnResponse (VList []));
      Log INFO MsgNoIncidents; Sleep 5],
     Ok tt).
Proof.
  intros Hr Hs Hj Hl.
  unfold iteration, process_try, get_most_recent_incident, fetch_incident,
    try_except, bind, log, sleep, emit, lift, ret.
  rewrite Hr. cbn -[py assoc]. rewrite (status_ok _ Hs). cbn -[py assoc].
  rewrite Hj. cbn -[py assoc].
  destruct Hl as [Hl|Hl]; rewrite Hl; reflexivity.
Qed.

(** X7: when the most recent incident has no description, or an empty
    one, the iteration stops after the query: it logs 'No description
    found for the incident.' and sleeps; the incident is not updated. *)
Theorem missing_description_cycle (r : http_response)
    (d incident : list (pystr * pyval)) (others : list pyval) (s : fs) :
  sn_get E = Ok r ->
  (status_code r < 400 \/ 600 <= status_code r)%Z ->
  json r = Ok (VDict d) ->
  assoc (py "result") d = Some (VList (VDict incident :: others)) ->
  incident <> [] ->
  (assoc (py "description") incident = None \/
   exists v, assoc (py "description") incident = Some v /\ truthy v = false) ->
  iteration E s
  = (s,
     [Log INFO MsgStartCycle; Log INFO MsgCallingServiceNow; SnQuery;
      Log INFO (MsgSnStatus (status_code r));
      Log INFO (MsgSnResponse (VList (VDict incident :: others)));
      Log INFO MsgNoDescription; Sleep 5],
     Ok tt).
Proof.
  intros Hr Hs Hj Hl Hne Hd.
  unfold iteration, process_try, get_most_recent_incident, fetch_incident,
    try_except, bind, log, sleep, emit, lift, ret.
  rewrite Hr. cbn -[py assoc]. rewrite (status_ok _ Hs). cbn -[py assoc].
  rewrite Hj. cbn -[py assoc].
  rewrite Hl. cbn -[py assoc].
  destruct incident as [|kv incident]; [contradiction|].
  cbn -[py assoc].
  destruct Hd as [Hd|(v & Hd & Hv)]; rewrite Hd; cbn -[py assoc];
    [reflexivity|].
  rewrite Hv. reflexivity.
Qed.

(** X8: [update_incident_state] never raises and leaves the file system
    alone, whether the PATCH request is refused, answered with an error
    status or accepted; it sends one request, whose body holds the state
    and holds the comment exactly when a non-empty comment was given. *)
Theorem update_never_raises (id : pyval) (st : pystr) (c : option pystr)
    (s : fs) :
  exists ev,
    update_incident_state E id st c s = (s, ev, Ok tt) /\
    filter is_update ev = [SnPatch id (update_data st c)] /\
    assoc (py "state") (update_data st c) = Some (VStr st) /\
    assoc (py "comments") (update_data st c)
    = match c with
      | Some (x :: t) => Some (VStr (x :: t))
      | _ => None
      end.
Proof.
  unfold update_incident_state, try_except, bind, log, emit, lift.
  assert (assoc (py "state") (update_data st c) = Some (VStr st) /\
          assoc (py "comments") (update_data st c)
          = match c with
            | Some (x :: t) => Some (VStr (x :: t))
            | _ => None
            end) as Hdata.
  { split; [reflexivity|]. destruct c as [[|x t]|]; reflexivity. }
  destruct (sn_patch E) as [r|e]; cbn.
  - destruct (raise_for_status r) as [[]|e]; cbn;
      [|destruct (is_http_error e); cbn]; eexists; (split; [reflexivity|]);
      (split; [reflexivity|exact Hdata]).
  - destruct (is_http_error e); cbn; eexists; (split; [reflexivity|]);
      (split; [reflexivity|exact Hdata]).
Qed.

End Ticketing.

(* ================================================================== *)
(** ** The loop over many iterations *)

(** As [by_event_class], for classes that look at the level of a log
    line. *)
Ltac by_event_level :=
  try (let e := fresh "e" in
       intros e; destruct e as [[] []| | |? ?|[? ?|?]|? ?|?|?|?]);
  simpl; intros; congruence.

Ltac filter_levels P :=
  repeat match goal with
  | H : Forall (fun e => ?Q e = true) ?ev |- context [filter P ?ev] =>
      rewrite (@only_filter Q P ev) by (assumption || by_event_level)
  | |- context [filter P (_ ++ _)] => rewrite filter_app
  | |- context [filter P (_ :: _)] => cbn [filter P]
  | H : filter P ?ev = _ |- context [filter P ?ev] => rewrite H
  end; cbn [app filter].

Section Loop.

(** What one iteration adds to the counts of the trace. *)
Lemma iteration_counts (E : env) (s : fs) :
  outcome (iteration E s) = Ok tt /\
  length (filter is_cycle_start (events (iteration E s))) = 1 /\
  length (filter is_update (events (iteration E s))) <= 1 /\
  length (filter is_sleep (events (iteration E s)))
  + length (filter is_found (events (iteration E s))) = 1.
Proof.
  run_cycle.
  all: split; [reflexivity|].
  all: split; [filter_levels is_cycle_start; reflexivity|].
  all: split; [filter_runs is_update; simpl; lia|].
  all: filter_levels is_sleep; filter_levels is_found; reflexivity.
Qed.

Variable envs : nat -> env.

Lemma run_from_counts (n : nat) :
  forall k s,
    outcome (run_from envs k n s) = Ok tt /\
    length (filter is_cycle_start (events (run_from envs k n s))) = n /\
    length (filter is_update (events (run_from envs k n s))) <= n /\
    length (filter is_sleep (events (run_from envs k n s)))
    + length (filter is_found (events (run_from envs k n s))) = n.
Proof.
  induction n as [|n IH]; intros k s.
  - cbn. repeat split; lia.
  - cbn [run_from]. unfold bind.
    destruct (iteration_counts (envs k) s) as (Ho & Hc & Hu & Hs).
    destruct (iteration (envs k) s) as [[s1 ev1] r1].
    cbn [outcome events fst snd] in Ho, Hc, Hu, Hs. subst r1.
    destruct (IH (S k) s1) as (Ho' & Hc' & Hu' & Hs').
    destruct (run_from envs (S k) n s1) as [[s2 ev2] r2].
    cbn [outcome events fst snd] in *.
    rewrite !filter_app, !length_app. repeat split; [exact Ho'|lia..].
Qed.

(** X9: the loop does not end on an error: whatever the environments of
    its first [n] iterations answer, no exception leaves
    [process_incidents] and all [n] iterations are started. *)
Theorem loop_never_raises (n : nat) (s : fs) :
  outcome (process_incidents envs n s) = Ok tt /\
  length (filter is_cycle_start (events (process_incidents envs n s))) = n.
Proof.
  destruct (run_from_counts n 0 s) as (Ho & Hc & _). now split.
Qed.

(** X10: over [n] iterations at most [n] PATCH requests are issued, and
    the iterations that do not sleep are exactly those that found an
    existing playbook: the sleeps and the 'Found an existing playbook'
    lines add up to [n]. *)
Theorem loop_sleeps_unless_matched (n : nat) (s : fs) :
  length (filter is_update (events (process_incidents envs n s))) <= n /\
  length (filter is_sleep (events (process_incidents envs n s)))
  + length (filter is_found (events (process_incidents envs n s))) = n.
Proof.
  destruct (run_from_counts n 0 s) as (_ & _ & Hu & Hs). now split.
Qed.

End Loop.

(* ================================================================== *)
(** ** More on the catalog and its search *)

Section Catalog.

Variable E : env.

(** X11: the catalog holds the contents of the [.yml] and [.yaml] files,
    in the order [os.walk] meets them; what a file of another name
    holds, or whether it can be read at all, does not matter. *)
Theorem read_playbooks_selects (files : list (pystr * result pystr)) :
  (forall file r, In (file, r) files -> is_playbook_file file = true ->
                  exists content, r = Ok content) ->
  exists catalog,
    read_playbooks files = Ok catalog /\
    map (@Ok pystr) catalog
    = map snd (filter (fun f => is_playbook_file (fst f)) files).
Proof.
  induction files as [|[file r] files IH]; intros Hall.
  - exists []. split; reflexivity.
  - destruct IH as (catalog & Hc & Hm).
    { intros f r' Hin. apply Hall. now right. }
    cbn [read_playbooks filter fst].
    change (ends_with (py ".yml") file || ends_with (py ".yaml") file)
      with (is_playbook_file file).
    destruct (is_playbook_file file) eqn:Hf.
    + destruct (Hall file r (or_introl eq_refl) Hf) as [content ->].
      exists (content :: catalog). cbn [rbind]. rewrite Hc. cbn [rbind].
      split; [reflexivity|]. cbn [map snd]. now rewrite Hm.
    + exists catalog. now split.
Qed.

Lemma read_playbooks_selects_witness :
  read_playbooks five_files
  = Ok [py "one"; py "two"; py "three"; py "four"; py "five"].
Proof.
  destruct (@read_playbooks_selects five_files) as (catalog & -> & Hm).
  - intros file r Hin _. cbn in Hin.
    repeat (destruct Hin as [[= <- <-]|Hin]; [eexists; reflexivity|]).
    contradiction.
  - f_equal. cbn in Hm.
    repeat (destruct catalog as [|? catalog]; [discriminate Hm|];
            injection Hm as -> Hm).
    destruct catalog; [reflexivity|discriminate Hm].
Defined.

(** X12: a playbook file that cannot be read stops the search with its
    error, when the playbook files before it could be read. *)
Theorem read_playbooks_error (before after : list (pystr * result pystr))
    (file : pystr) (e : exn) :
  (forall f r, In (f, r) before -> is_playbook_file f = true ->
               exists content, r = Ok content) ->
  is_playbook_file file = true ->
  read_playbooks (before ++ (file, Raise e) :: after) = Raise e.
Proof.
  intros Hall Hf. induction before as [|[f r] before IH].
  - cbn [app read_playbooks].
    change (ends_with (py ".yml") file || ends_with (py ".yaml") file)
      with (is_playbook_file file).
    now rewrite Hf.
  - cbn [app read_playbooks].
    change (ends_with (py ".yml") f || ends_with (py ".yaml") f)
      with (is_playbook_file f).
    assert (read_playbooks (before ++ (file, Raise e) :: after) = Raise e) as Hr.
    { apply IH. intros f' r' Hin. apply Hall. now right. }
    destruct (is_playbook_file f) eqn:Hff; [|exact Hr].
    destruct (Hall f r (or_introl eq_refl) Hff) as [content ->].
    cbn [rbind]. now rewrite Hr.
Qed.

Lemma read_playbooks_error_witness :
  read_playbooks
    ([(py "notes.txt", Raise OSError); (py "a.yml", Ok (py "one"))]
       ++ (py "b.yaml", Raise OSError) :: [(py "c.yml", Ok (py "three"))])
  = Raise OSError.
Proof.
  apply read_playbooks_error; [|reflexivity].
  intros f r [[= <- <-]|[[= <- <-]|[]]] Hf; [discriminate Hf|].
  eexists; reflexivity.
Defined.

Variable description : pyval.

Lemma match_loop_sound (catalog : list pystr) :
  forall i s v,
    outcome (match_loop E description i catalog s) = Ok v ->
    (v = VNone /\
     forall j q, nth_error catalog j = Some q -> judged E (i + j) q = Ok false)
    \/
    (exists k playbook,
       v = VStr playbook /\ nth_error catalog k = Some playbook /\
       judged E (i + k) playbook = Ok true /\
       forall j q, j < k -> nth_error catalog j = Some q ->
                   judged E (i + j) q = Ok false).
Proof.
  induction catalog as [|p rest IH]; intros i s v H.
  - injection H as <-. left. split; [reflexivity|].
    intros j q Hq. destruct j; discriminate.
  - rewrite match_loop_step in H.
    destruct (judged E i p) as [[|]|e] eqn:Hj; [| |discriminate].
    + injection H as <-. right. exists 0, p.
      rewrite Nat.add_0_r. repeat split; try assumption. intros; lia.
    + destruct (IH (S i) s v H) as [[-> Hno]|(k & q & -> & Hk & Hyes & Hno)].
      * left. split; [reflexivity|].
        intros [|j] q Hq.
        -- injection Hq as <-. now rewrite Nat.add_0_r.
        -- rewrite <- Nat.add_succ_comm. now apply Hno.
      * right. exists (S k), q.
        rewrite <- Nat.add_succ_comm. repeat split; try assumption.
        intros [|j] q' Hlt Hq.
        -- injection Hq as <-. now rewrite Nat.add_0_r.
        -- rewrite <- Nat.add_succ_comm. apply Hno; [lia|exact Hq].
Qed.

(** X13: what the search returns is sound.  A returned playbook is an
    entry of the catalog that was judged a match, all entries before it
    having been judged not to match; [None] is returned only when every
    entry was judged not to match. *)
Theorem search_sound (catalog : list pystr) (s : fs) (v : pyval) :
  outcome (clone_existing_playbooks_repo E s) = Ok tt ->
  read_playbooks (walk E) = Ok catalog ->
  outcome (search_existing_playbooks E description s) = Ok v ->
  (v = VNone /\
   forall j q, nth_error catalog j = Some q -> judged E j q = Ok false)
  \/
  (exists k playbook,
     v = VStr playbook /\ nth_error catalog k = Some playbook /\
     judged E k playbook = Ok true /\
     forall j q, j < k -> nth_error catalog j = Some q ->
                 judged E j q = Ok false).
Proof.
  intros Hc Hr. rewrite (@search_outcome E description catalog s Hc Hr). intros H.
  exact (@match_loop_sound catalog 0 _ v H).
Qed.

Lemma match_loop_raises (catalog : list pystr) :
  forall i k playbook e s,
    nth_error catalog k = Some playbook ->
    judged E (i + k) playbook = Raise e ->
    (forall j q, j < k -> nth_error catalog j = Some q ->
                 judged E (i + j) q = Ok false) ->
    outcome (match_loop E description i catalog s) = Raise e.
Proof.
  induction catalog as [|p rest IH]; intros i k playbook e s Hk He Hno.
  - destruct k; discriminate.
  - rewrite match_loop_step. destruct k as [|k].
    + injection Hk as ->. rewrite Nat.add_0_r in He. now rewrite He.
    + rewrite <- (Nat.add_0_r i), (Hno 0 p) by (reflexivity || lia).
      rewrite Nat.add_0_r.
      apply (IH (S i) k playbook); [exact Hk|now rewrite Nat.add_succ_comm|].
      intros j q Hj Hq. rewrite Nat.add_succ_comm.
      apply Hno; [lia|exact Hq].
Qed.

(** X14: a classifier call that fails is not taken for 'no match': when
    the entries before it were judged not to match, the search raises the
    error of the call; the entries after it are not evaluated. *)
Theorem classifier_failure_propagates (catalog : list pystr) (s : fs)
    (k : nat) (playbook : pystr) (e : exn) :
  outcome (clone_existing_playbooks_repo E s) = Ok tt ->
  read_playbooks (walk E) = Ok catalog ->
  nth_error catalog k = Some playbook ->
  judged E k playbook = Raise e ->
  (forall j q, j < k -> nth_error catalog j = Some q ->
               judged E j q = Ok false) ->
  outcome (search_existing_playbooks E description s) = Raise e.
Proof.
  intros Hc Hr Hk He Hno. rewrite (@search_outcome E description catalog s Hc Hr).
  now apply (@match_loop_raises catalog 0 k playbook).
Qed.

End Catalog.

Lemma search_sound_witness :
  exists k,
    nth_error [py "one"; py "two"; py "three"; py "four"; py "five"] k
    = Some (py "two") /\
    judged five_env k (py "two") = Ok true.
Proof.
  destruct (@search_sound five_env node7
              [py "one"; py "two"; py "three"; py "four"; py "five"]
              empty_fs (VStr (py "two")) eq_refl eq_refl eq_refl)
    as [[H _]|(k & p & Hv & Hk & Hyes & _)]; [discriminate H|].
  injection Hv as <-. exists k. now split.
Defined.

Lemma classifier_failure_propagates_witness :
  judged flaky_env 1 (py "two") = Raise OpenAIError /\
  outcome (search_existing_playbooks flaky_env node7 empty_fs)
  = Raise OpenAIError.
Proof.
  split; [reflexivity|].
  apply (@classifier_failure_propagates flaky_env node7
           [py "one"; py "two"; py "three"; py "four"; py "five"]
           empty_fs 1 (py "two") OpenAIError eq_refl eq_refl eq_refl eq_refl).
  intros j q Hj Hq. destruct j as [|j]; [reflexivity|lia].
Defined.

(* ================================================================== *)
(** ** The calls of the search, and what it leaves on disk *)

Section SearchTrace.

Variable E : env.
Variable description : pyval.

Lemma match_loop_chat_step (i : nat) (playbook : pystr) (rest : list pystr)
    (s : fs) :
  filter is_chat (events (match_loop E description i (playbook :: rest) s)) =
  ask_match description playbook ::
  match judged E i playbook with
  | Ok false => filter is_chat (events (match_loop E description (S i) rest s))
  | _ => []
  end.
Proof.
  cbn [match_loop]. unfold judged, bind, emit, lift, ret.
  destruct (chat_match E i playbook) as [response|e]; cbn; [|reflexivity].
  destruct (message_content response) as [evaluation|e]; cbn; [|reflexivity].
  destruct (occurs _ (lower E evaluation)); cbn; [reflexivity|].
  now destruct (match_loop E description (S i) rest s) as [[? ?] ?].
Qed.

Lemma match_loop_fs (catalog : list pystr) :
  forall i s, final_fs (match_loop E description i catalog s) = s.
Proof.
  induction catalog as [|p rest IH]; intros i s; [reflexivity|].
  cbn [match_loop]. unfold bind, emit, lift, ret.
  destruct (chat_match E i p) as [response|e]; cbn; [|reflexivity].
  destruct (message_content response) as [evaluation|e]; cbn; [|reflexivity].
  destruct (occurs _ (lower E evaluation)); cbn; [reflexivity|].
  specialize (IH (S i) s).
  now destruct (match_loop E description (S i) rest s) as [[? ?] ?].
Qed.

Lemma match_loop_asks_first (catalog : list pystr) :
  forall i k playbook s,
    nth_error catalog k = Some playbook ->
    judged E (i + k) playbook <> Ok false ->
    (forall j q, j < k -> nth_error catalog j = Some q ->
                 judged E (i + j) q = Ok false) ->
    filter is_chat (events (match_loop E description i catalog s))
    = map (ask_match description) (firstn (S k) catalog).
Proof.
  induction catalog as [|p rest IH]; intros i k playbook s Hk Hyes Hno.
  - destruct k; discriminate.
  - rewrite match_loop_chat_step. destruct k as [|k].
    + injection Hk as ->. rewrite Nat.add_0_r in Hyes.
      cbn [firstn map]. f_equal.
      destruct (judged E i playbook) as [[|]|e]; congruence.
    + rewrite <- (Nat.add_0_r i), (Hno 0 p) by (reflexivity || lia).
      rewrite Nat.add_0_r.
      change (firstn (S (S k)) (p :: rest)) with (p :: firstn (S k) rest).
      cbn [map]. f_equal.
      apply (IH (S i) k playbook); [exact Hk|now rewrite Nat.add_succ_comm|].
      intros j q Hj Hq. rewrite Nat.add_succ_comm.
      apply Hno; [lia|exact Hq].
Qed.

Lemma match_loop_asks_all (catalog : list pystr) :
  forall i s,
    (forall j q, nth_error catalog j = Some q -> judged E (i + j) q = Ok false) ->
    filter is_chat (events (match_loop E description i catalog s))
    = map (ask_match description) catalog.
Proof.
  induction catalog as [|p rest IH]; intros i s Hno; [reflexivity|].
  rewrite match_loop_chat_step.
  rewrite <- (Nat.add_0_r i), (Hno 0 p) by reflexivity.
  rewrite Nat.add_0_r. cbn [map]. f_equal. apply IH.
  intros j q Hq. rewrite Nat.add_succ_comm. now apply Hno.
Qed.

Lemma clone_no_chat (s : fs) :
  filter is_chat (events (clone_existing_playbooks_repo E s)) = [].
Proof.
  unfold clone_existing_playbooks_repo, bind, path_isdir, rmtree, effect, ret.
  cbv beta iota.
  repeat (split_scrutinee; cbn [events fst snd app]);
    repeat match goal with
           | H : (_, _, _) = (_, _, _) |- _ => injection H as <- <- <-
           end;
    try discriminate; reflexivity.
Qed.

Lemma search_chats (catalog : list pystr) (s : fs) :
  outcome (clone_existing_playbooks_repo E s) = Ok tt ->
  read_playbooks (walk E) = Ok catalog ->
  filter is_chat (events (search_existing_playbooks E description s)) =
  filter is_chat
    (events (match_loop E description 0 catalog
               (final_fs (clone_existing_playbooks_repo E s)))).
Proof.
  intros Hc Hr. pose proof (clone_no_chat s) as Hn.
  unfold search_existing_playbooks, bind at 1.
  destruct (clone_existing_playbooks_repo E s) as [[s1 ev1] r1].
  cbn in Hc, Hn. subst r1. unfold bind, log, emit, lift. rewrite Hr.
  cbn [final_fs fst].
  destruct (match_loop E description 0 catalog s1) as [[s2 ev2] r2].
  cbn [events fst snd app]. rewrite filter_app, Hn. reflexivity.
Qed.

(** X15: the classifier is asked about the catalog entries in order, one
    call per entry, up to and including the first entry that is judged a
    match or whose call fails, and about no entry after it; without such
    an entry it is asked about every entry once. *)
Theorem search_stops_at_first_match (catalog : list pystr) (s : fs) :
  outcome (clone_existing_playbooks_repo E s) = Ok tt ->
  read_playbooks (walk E) = Ok catalog ->
  (forall k playbook,
     nth_error catalog k = Some playbook ->
     judged E k playbook <> Ok false ->
     (forall j q, j < k -> nth_error catalog j = Some q ->
                  judged E j q = Ok false) ->
     filter is_chat (events (search_existing_playbooks E description s))
     = map (ask_match description) (firstn (S k) catalog))
  /\
  ((forall j q, nth_error catalog j = Some q -> judged E j q = Ok false) ->
   filter is_chat (events (search_existing_playbooks E description s))
   = map (ask_match description) catalog).
Proof.
  intros Hc Hr. rewrite (search_chats _ Hc Hr). split.
  - intros k playbook Hk Hyes Hno.
    now apply (@match_loop_asks_first catalog 0 k playbook).
  - intros Hno. now apply match_loop_asks_all.
Qed.

(** A catalog copy that cannot be removed stops the clone before it
    starts. *)
Lemma clone_stuck (s : fs) :
  isdir EXISTING_PLAYBOOKS_DIR s = true ->
  s EXISTING_PLAYBOOKS_DIR = Some DirLink \/
  rmtree_stop E EXISTING_PLAYBOOKS_DIR <> None ->
  exists s1,
    clone_existing_playbooks_repo E s
    = (s1, [Rmtree EXISTING_PLAYBOOKS_DIR], Raise OSError) /\
    isdir EXISTING_PLAYBOOKS_DIR s1 = true.
Proof.
  intros D Hwhy. unfold clone_existing_playbooks_repo, bind, path_isdir.
  rewrite D.
  destruct (rmtree (rmtree_stop E EXISTING_PLAYBOOKS_DIR)
              EXISTING_PLAYBOOKS_DIR s) as [[s1 ev1] r1] eqn:R.
  destruct (rmtree_run _ _ _ D R) as (-> & [(_ & _ & Hd & Hs)|(-> & H1 & _)]).
  - exfalso. destruct Hwhy as [Hl|Hl]; congruence.
  - exists s1. now split.
Qed.

Lemma search_stuck (s : fs) :
  isdir EXISTING_PLAYBOOKS_DIR s = true ->
  s EXISTING_PLAYBOOKS_DIR = Some DirLink \/
  rmtree_stop E EXISTING_PLAYBOOKS_DIR <> None ->
  exists s1,
    search_existing_playbooks E description s
    = (s1, [Rmtree EXISTING_PLAYBOOKS_DIR], Raise OSError) /\
    isdir EXISTING_PLAYBOOKS_DIR s1 = true.
Proof.
  intros D Hwhy. destruct (@clone_stuck s D Hwhy) as (s1 & Hc & D1).
  exists s1. split; [|exact D1].
  unfold search_existing_playbooks, bind at 1. now rewrite Hc.
Qed.

(** X17: after the clone the search does not touch the file system
    again: the copy of the catalog is still there when it returns,
    whether it found a match, found none, or failed. *)
Theorem search_keeps_catalog_copy (s : fs) :
  final_fs (search_existing_playbooks E description s)
  = final_fs (clone_existing_playbooks_repo E s).
Proof.
  unfold search_existing_playbooks, bind at 1.
  destruct (clone_existing_playbooks_repo E s) as [[s1 ev1] [[]|e]];
    [|reflexivity].
  unfold bind, log, emit, lift.
  destruct (read_playbooks (walk E)) as [catalog|e]; [|reflexivity].
  pose proof (match_loop_fs catalog 0 s1) as H.
  destruct (match_loop E description 0 catalog s1) as [[s2 ev2] r2].
  exact H.
Qed.

End SearchTrace.

Lemma search_stops_at_first_match_witness :
  filter is_chat (events (search_existing_playbooks five_env node7 empty_fs))
  = [Chat (AskMatch node7 (py "one")); Chat (AskMatch node7 (py "two"))].
Proof.
  apply (proj1 (@search_stops_at_first_match five_env node7
                  [py "one"; py "two"; py "three"; py "four"; py "five"]
                  empty_fs eq_refl eq_refl) 1 (py "two") eq_refl).
  - discriminate.
  - intros j q Hj Hq. destruct j as [|j]; [reflexivity|lia].
Defined.

(* ================================================================== *)
(** ** Drafting and publishing within an iteration *)

Section Publishing.

Variable E : env.

Lemma message_content_trimmed (response : pyval) (t : pystr) :
  message_content response = Ok t -> strip t = t.
Proof.
  unfold message_content, rbind.
  repeat (split_scrutinee; try discriminate).
  destruct a2; try discriminate. intros [= <-]. apply strip_idem.
Qed.

(** X18: the text that [ask_openai] returns is trimmed: it neither
    starts nor ends with whitespace. *)
Theorem draft_is_trimmed (d : pyval) (s : fs) (t : pystr) :
  outcome (ask_openai E d s) = Ok t -> strip t = t.
Proof.
  rewrite draft_outcome_run. unfold draft_outcome, rbind.
  destruct (chat_generate E) as [response|e]; [|discriminate].
  apply message_content_trimmed.
Qed.

(** The steps that a posted request has behind it. *)
Lemma publish_posted_steps b f c s s1 ev r :
  create_pull_request E b f c s = (s1, ev, r) ->
  forall b', In (PrPost b') ev ->
    b' = b /\
    In (Git (CloneFrom repo_url repo_dir)) ev /\
    In (Git (CreateHead b)) ev /\
    In (Git (Checkout b)) ev /\
    In (Git (WriteFile (repo_dir ++ py "/" ++ f) c)) ev /\
    In (Git IndexCommit) ev /\
    In (Git (Push b)) ev.
Proof.
  unfold create_pull_request, try_finally, publish_steps, git_run, effect,
    bind, log, emit, lift, ret.
  repeat (split_scrutinee; cbn [events outcome final_fs fst snd app]);
    subst.
  all: match goal with
       | H : remove_repo_dir _ _ = _ |- _ =>
           pose proof (@only_run _ _ _ _ _ _ _ (cleanup_only E) H)
       end.
  all: intros [= <- <- <-] b' Hin; in_cases Hin.
  all: injection Hin as <-.
  all: repeat split; pick.
Qed.

(** X19: what is published is the formatted draft.  Whenever an
    iteration posts a pull request, its head is the branch
    [generated-playbook-<timestamp>]; that branch was created, checked
    out and pushed; and the file written to
    [repo/generated_playbook.yml] is [format_playbook_content] of the
    text that [ask_openai] returned. *)
Theorem published_document_is_formatted_draft (s : fs) (b : pystr) :
  In (PrPost b) (events (iteration E s)) ->
  b = py "generated-playbook-" ++ now E /\
  In (Git (CreateHead b)) (events (iteration E s)) /\
  In (Git (Checkout b)) (events (iteration E s)) /\
  In (Git (Push b)) (events (iteration E s)) /\
  exists draft,
    draft_outcome E = Ok draft /\
    In (Git (WriteFile (repo_dir ++ py "/" ++ file_path)
               (format_playbook_content draft)))
      (events (iteration E s)).
Proof.
  run_cycle.
  all: intros Hin; in_cases Hin.
  all: match goal with
       | Hc : create_pull_request _ _ _ _ _ = _, Hin : In (PrPost _) _ |- _ =>
           destruct (publish_posted_steps _ _ _ _ Hc _ Hin)
             as (-> & _ & ? & ? & ? & _ & ?)
       end.
  all: split; [reflexivity|].
  all: split; [pick|]. all: split; [pick|]. all: split; [pick|].
  all: eexists; split; [symmetry; eassumption|pick].
Qed.


(** X21: a working copy outlives the iteration that made it only when
    its removal failed.  If there is a directory at [repo_dir] after an
    iteration that ran a git step, then [shutil.rmtree] was called on it
    and raised - [repo_dir] is a symbolic link, or the operating system
    stopped the removal - and the iteration logged that [OSError] and
    issued no PATCH request, whatever the pipeline had achieved. *)
Theorem working_copy_outlives_failed_removal (s : fs) :
  (exists step, In (Git step) (events (iteration E s))) ->
  isdir repo_dir (final_fs (iteration E s)) = true ->
  In (Rmtree repo_dir) (events (iteration E s)) /\
  In (Log ERROR (MsgErrorProcessing OSError)) (events (iteration E s)) /\
  filter is_update (events (iteration E s)) = [] /\
  (final_fs (iteration E s) repo_dir = Some DirLink \/
   rmtree_stop E repo_dir <> None).
Proof.
  run_cycle.
  all: intros [step Hin] D; in_cases Hin.
  all: repeat match goal with
       | Hu : update_incident_state _ _ _ _ _ = _ |- _ =>
           apply update_fs in Hu; subst
       end.
  all: match goal with
       | Hr : isdir repo_dir ?s1 = true -> _ |- _ =>
           destruct (Hr D) as (Hr' & ? & ?);
           try discriminate Hr'; injection Hr' as ->
       end.
  split; [pick|]. split; [pick|].
  split; [filter_runs is_update; reflexivity|assumption].
Qed.

(** X16: a catalog copy that cannot be removed blocks the workflow.  When
    [existing_playbooks] is on disk and its removal fails - it is a
    symbolic link, or the operating system stops the removal - the
    iteration clones nothing, asks neither the classifier nor the
    generator, publishes nothing and issues no PATCH request; if it got as
    far as the search it logs the [OSError]; and the copy is still on
    disk for the next iteration. *)
Theorem stuck_catalog_copy_blocks_cycle (s : fs) :
  isdir EXISTING_PLAYBOOKS_DIR s = true ->
  s EXISTING_PLAYBOOKS_DIR = Some DirLink \/
  rmtree_stop E EXISTING_PLAYBOOKS_DIR <> None ->
  outcome (iteration E s) = Ok tt /\
  isdir EXISTING_PLAYBOOKS_DIR (final_fs (iteration E s)) = true /\
  filter is_chat (events (iteration E s)) = [] /\
  filter is_publish (events (iteration E s)) = [] /\
  filter is_update (events (iteration E s)) = [] /\
  (forall url dir, ~ In (CloneCatalog url dir) (events (iteration E s))) /\
  (In (Rmtree EXISTING_PLAYBOOKS_DIR) (events (iteration E s)) ->
   In (Log ERROR (MsgErrorProcessing OSError)) (events (iteration E s))).
Proof.
  intros D Hwhy. run_cycle.
  all: repeat match goal with
       | Hf : get_most_recent_incident _ _ = _ |- _ =>
           apply fetch_fs in Hf; subst
       end.
  all: try match goal with
       | Hs : search_existing_playbooks _ ?d _ = _ |- _ =>
           destruct (@search_stuck E d s D Hwhy) as (? & Hs' & ?);
           rewrite Hs' in Hs; try discriminate Hs; injection Hs as <- <- <-
       end.
  all: split; [reflexivity|]. all: split; [assumption|].
  all: split; [filter_runs is_chat; reflexivity|].
  all: split; [filter_runs is_publish; reflexivity|].
  all: split; [filter_runs is_update; reflexivity|].
  all: split; [intros url dir Hx; in_cases Hx|].
  all: intros Hx; in_cases Hx; pick.
Qed.

End Publishing.

(* ================================================================== *)
(** ** Further scenarios, run *)

Lemma fetch_first_or_none_witness :
  outcome (get_most_recent_incident generated_env empty_fs) = Ok disk_full.
Proof.
  apply (@fetch_first_or_none generated_env
           (response 200 (Ok (VDict [(py "result", VList [disk_full])])))
           [(py "result", VList [disk_full])] [disk_full] empty_fs eq_refl).
  - cbn. lia.
  - reflexivity.
  - left. reflexivity.
Defined.

Lemma empty_backend_cycle_witness :
  filter is_update (events (iteration no_incident_env empty_fs)) = [] /\
  outcome (iteration no_incident_env empty_fs) = Ok tt.
Proof.
  rewrite (@empty_backend_cycle no_incident_env
             (response 200 (Ok (VDict [(py "result", VList [])])))
             [(py "result", VList [])] empty_fs eq_refl).
  - split; reflexivity.
  - cbn. lia.
  - reflexivity.
  - left. reflexivity.
Defined.

Lemma missing_description_cycle_witness :
  filter is_update (events (iteration no_description_env empty_fs)) = [] /\
  filter is_chat (events (iteration no_description_env empty_fs)) = [].
Proof.
  rewrite (@missing_description_cycle no_description_env
             (response 200
                (Ok (VDict [(py "result",
                             VList [VDict [(py "sys_id", VStr (py "a1b2c3"))]])])))
             [(py "result", VList [VDict [(py "sys_id", VStr (py "a1b2c3"))]])]
             [(py "sys_id", VStr (py "a1b2c3"))] [] empty_fs eq_refl).
  - split; reflexivity.
  - cbn. lia.
  - reflexivity.
  - reflexivity.
  - discriminate.
  - left. reflexivity.
Defined.

Lemma draft_is_trimmed_witness :
  outcome (ask_openai generated_env node7 empty_fs)
  = Ok (py "```yaml" ++ [newline] ++ py "- hosts: all" ++ [newline] ++ py "```")
  /\
  strip (py "```yaml" ++ [newline] ++ py "- hosts: all" ++ [newline] ++ py "```")
  = py "```yaml" ++ [newline] ++ py "- hosts: all" ++ [newline] ++ py "```".
Proof.
  split; [reflexivity|].
  apply (@draft_is_trimmed generated_env node7 empty_fs). reflexivity.
Defined.

Lemma published_document_is_formatted_draft_witness :
  In (PrPost generated_branch) (events (iteration generated_env empty_fs)) /\
  In (Git (WriteFile (py "repo/generated_playbook.yml")
             (py "---" ++ [newline] ++ py "- hosts: all")))
    (events (iteration generated_env empty_fs)).
Proof.
  assert (In (PrPost generated_branch)
            (events (iteration generated_env empty_fs))) as Hin by find_event.
  split; [exact Hin|].
  destruct (published_document_is_formatted_draft generated_env empty_fs _ Hin)
    as (_ & _ & _ & _ & draft & Hd & Hw).
  injection Hd as <-. exact Hw.
Defined.


(** The request is created, the working copy cannot be removed: the
    handle is lost and the incident is not updated. *)
Lemma working_copy_outlives_failed_removal_witness :
  In (PrPost generated_branch) (events (iteration locked_generated_env empty_fs)) /\
  isdir repo_dir (final_fs (iteration locked_generated_env empty_fs)) = true /\
  In (Log ERROR (MsgErrorProcessing OSError))
    (events (iteration locked_generated_env empty_fs)) /\
  filter is_update (events (iteration locked_generated_env empty_fs)) = [].
Proof.
  split; [find_event|]. split; [reflexivity|].
  destruct (@working_copy_outlives_failed_removal locked_generated_env empty_fs)
    as (_ & Hlog & Hu & _).
  - exists (Push generated_branch). find_event.
  - reflexivity.
  - split; [exact Hlog|exact Hu].
Defined.

(** The catalog copy of an earlier search cannot be removed. *)
Lemma stuck_catalog_copy_blocks_cycle_witness :
  isdir EXISTING_PLAYBOOKS_DIR stale_catalog_fs = true /\
  filter is_chat (events (iteration locked_catalog_env stale_catalog_fs)) = [] /\
  filter is_update (events (iteration locked_catalog_env stale_catalog_fs)) = [] /\
  In (Log ERROR (MsgErrorProcessing OSError))
    (events (iteration locked_catalog_env stale_catalog_fs)).
Proof.
  split; [reflexivity|].
  destruct (@stuck_catalog_copy_blocks_cycle locked_catalog_env stale_catalog_fs)
    as (_ & _ & Hc & _ & Hu & _ & Hlog).
  - reflexivity.
  - right. discriminate.
  - split; [exact Hc|]. split; [exact Hu|]. apply Hlog. find_event.
Defined.
